(** * MercuryITC: the protocol layer of [mercuryITC.py]

    A shallow embedding of the two driver classes of [mercuryITC.py]
    ([temperatureController], which talks over a serial line, and
    [temperatureControllerEthernet], which opens one TCP connection per
    command) together with the Python 2 built-ins their code relies on.

    - Python 2 [str] values are byte strings: Rocq's [string] (a list of
      8-bit [ascii]) is used for them as it is.
    - Python floats are IEEE-754 binary64 values: [spec_float] with the
      operations of [SpecFloat] at precision 53 and maximal exponent 1024.
    - The serial port and the network are an explicit environment: a stub
      that answers every call, and a chronological log of the calls made.
    - Exceptions are values of [exn]; a computation returns a [result]
      together with the state it leaves behind, so that what was done
      before an exception was raised stays done.
    - Rationals give floats and decimal numerals their exact values where
      the accuracy of a decoded reading is stated. *)

From Stdlib Require Import ZArith QArith Qpower Lqa String Ascii List Bool Lia.
From Stdlib Require Import Floats.SpecFloat.
From stdpp Require Import gmap strings.
Import ListNotations.

Local Open Scope string_scope.
Local Open Scope list_scope.

(** ** Exceptions and results *)

Inductive exn : Type :=
| IndexError
| KeyError (key : string)
| ValueError
| UnboundLocalError
| SocketError          (* socket.error and its subclasses *)
| SerialException
| KeyboardInterrupt
| SystemExit.          (* raised by sys.exit() *)

Inductive result (A : Type) : Type :=
| Ret (a : A)
| Raise (e : exn).
Arguments Ret {A} a.
Arguments Raise {A} e.

Definition returns {A} (r : result A) : bool :=
  match r with Ret _ => true | Raise _ => false end.

(** ** Python built-ins *)

Module Py.

Definition float : Type := spec_float.

Definition prec : Z := 53.
Definition emax : Z := 1024.

(** [x * y] on floats. *)
Definition fmul (x y : float) : float := SFmul prec emax x y.

Definition ascii_in (lo hi : nat) (c : ascii) : bool :=
  let n := nat_of_ascii c in (lo <=? n)%nat && (n <=? hi)%nat.

(** [c.isdigit()] on a byte, in the C locale. *)
Definition isdigit_char (c : ascii) : bool := ascii_in 48 57 c.

(** [c.isspace()] on a byte, in the C locale: tab, newline, vertical tab,
    form feed, carriage return, space. *)
Definition isspace_char (c : ascii) : bool :=
  ascii_in 9 13 c || (nat_of_ascii c =? 32)%nat.

(** [s.isdigit()]: every byte is a digit and there is at least one. *)
Fixpoint all_digits (s : string) : bool :=
  match s with
  | EmptyString => true
  | String c r => isdigit_char c && all_digits r
  end.

Definition isdigit (s : string) : bool :=
  match s with
  | EmptyString => false
  | _ => all_digits s
  end.

(** [s[i]] for a string: negative indices count from the end, an index
    out of range raises [IndexError]; the value is a string of length 1. *)
Definition getitem (s : string) (i : Z) : result string :=
  let n := Z.of_nat (String.length s) in
  let j := if (i <? 0)%Z then (i + n)%Z else i in
  if ((j <? 0) || (n <=? j))%Z then Raise IndexError
  else match String.get (Z.to_nat j) s with
       | Some c => Ret (String c EmptyString)
       | None => Raise IndexError
       end.

(** [s[:stop]]: slices never raise, the bound is clipped. *)
Definition slice_to (s : string) (stop : Z) : string :=
  let n := Z.of_nat (String.length s) in
  let j := if (stop <? 0)%Z then Z.max 0 (stop + n) else Z.min stop n in
  String.substring 0 (Z.to_nat j) s.

(** [l[-1]] for a list. *)
Fixpoint last_item {A} (l : list A) : result A :=
  match l with
  | [] => Raise IndexError
  | [x] => Ret x
  | _ :: r => last_item r
  end.

(** [s.split(sep)] for a separator of one byte: the result always has
    at least one field. *)
Fixpoint split (sep : ascii) (s : string) : list string :=
  match s with
  | EmptyString => [EmptyString]
  | String c r =>
      if Ascii.eqb c sep then EmptyString :: split sep r
      else match split sep r with
           | f :: fs => String c f :: fs
           | [] => [String c EmptyString]
           end
  end.

(** [s.lstrip()] and [s.rstrip()]. *)
Fixpoint lstrip (s : string) : string :=
  match s with
  | EmptyString => EmptyString
  | String c r => if isspace_char c then lstrip r else s
  end.

Fixpoint rstrip (s : string) : string :=
  match s with
  | EmptyString => EmptyString
  | String c r =>
      match rstrip r with
      | EmptyString => if isspace_char c then EmptyString else String c EmptyString
      | r' => String c r'
      end
  end.

(** [str(n)] for a non-negative integer. *)
Definition digit_char (d : nat) : ascii := ascii_of_nat (48 + d).

Fixpoint str_nat_aux (fuel n : nat) (acc : string) : string :=
  match fuel with
  | O => acc
  | S fuel' =>
      let acc' := String (digit_char (n mod 10)) acc in
      match (n / 10)%nat with
      | O => acc'
      | q => str_nat_aux fuel' q acc'
      end
  end.

Definition str_nat (n : nat) : string := str_nat_aux (S n) n EmptyString.

(** *** [float(s)] on a string

    CPython 2.7 skips leading white space, reads the longest prefix that
    is a number ([inf], [infinity] or [nan] in any case, or a decimal
    numeral with an optional exponent, each with an optional sign), skips
    trailing white space and raises [ValueError] unless the whole string
    was used. The numeral is rounded to the nearest binary64 value, ties
    to even; too large a numeral gives an infinity. *)

Definition digit_val (c : ascii) : Z := Z.of_nat (nat_of_ascii c - 48).

(** Reads a run of digits: the number read so far, how many digits were
    read, and what follows. *)
Fixpoint digits (s : string) (acc : Z) (n : nat) : Z * nat * string :=
  match s with
  | String c r =>
      if isdigit_char c then digits r (10 * acc + digit_val c)%Z (S n)
      else (acc, n, s)
  | EmptyString => (acc, n, s)
  end.

Definition sign (s : string) : bool * string :=
  match s with
  | String "-" r => (true, r)
  | String "+" r => (false, r)
  | _ => (false, s)
  end.

Definition tolower (c : ascii) : ascii :=
  if ascii_in 65 90 c then ascii_of_nat (nat_of_ascii c + 32) else c.

(** [Some rest] when [s] is [p] followed by [rest], letters compared
    without case ([p] is in lower case). *)
Fixpoint match_nocase (p s : string) : option string :=
  match p, s with
  | EmptyString, _ => Some s
  | String a p', String c s' =>
      if Ascii.eqb (tolower c) a then match_nocase p' s' else None
  | String _ _, EmptyString => None
  end.

Definition parse_inf_or_nan (s : string) : option (float * string) :=
  let '(neg, r) := sign s in
  match match_nocase "inf" r with
  | Some r1 =>
      match match_nocase "inity" r1 with
      | Some r2 => Some (S754_infinity neg, r2)
      | None => Some (S754_infinity neg, r1)
      end
  | None =>
      match match_nocase "nan" r with
      | Some r1 => Some (S754_nan, r1)
      | None => None
      end
  end.

(** The binary64 value nearest to [(-1)^neg * m * 10^e10]. *)
Definition of_decimal (neg : bool) (m e10 : Z) : float :=
  match m with
  | Zpos _ =>
      if (0 <=? e10)%Z then
        binary_round prec emax neg (Z.to_pos (m * 10 ^ e10)) 0
      else
        let '(q, e2, l) := SFdiv_core_binary prec emax m 0 (10 ^ (- e10)) 0 in
        binary_round_aux prec emax neg q e2 l
  | _ => S754_zero neg
  end.

(** The exponent part: [e] or [E], an optional sign, at least one digit;
    when no digit follows, the [e] is not part of the number. *)
Definition parse_exponent (s : string) : Z * string :=
  match s with
  | String c r =>
      if Ascii.eqb (tolower c) "e" then
        let '(eneg, r1) := sign r in
        let '(ev, en, r2) := digits r1 0 0 in
        match en with
        | O => (0%Z, s)
        | _ => ((if eneg then - ev else ev)%Z, r2)
        end
      else (0%Z, s)
  | EmptyString => (0%Z, s)
  end.

Definition parse_decimal (s : string) : option (float * string) :=
  let '(neg, r) := sign s in
  let '(m1, n1, r1) := digits r 0 0 in
  let '(m, nfrac, r2) :=
    match r1 with
    | String "." r' => digits r' m1 0
    | _ => (m1, O, r1)
    end in
  match (n1 + nfrac)%nat with
  | O => None
  | _ =>
      let '(e, r3) := parse_exponent r2 in
      Some (of_decimal neg m (e - Z.of_nat nfrac), r3)
  end.

Definition parse_number (s : string) : option (float * string) :=
  match parse_inf_or_nan s with
  | Some x => Some x
  | None => parse_decimal s
  end.

Definition float_of_string (s : string) : result float :=
  match parse_number (lstrip s) with
  | Some (x, rest) =>
      match lstrip rest with
      | EmptyString => Ret x
      | _ => Raise ValueError
      end
  | None => Raise ValueError
  end.

(** A float literal of the source text, such as [1e-3]. *)
Definition literal (s : string) : float :=
  match float_of_string s with
  | Ret x => x
  | Raise _ => S754_nan
  end.

End Py.

(** ** The environment: serial line, network, console and clock *)

(** What one TCP connection attempt meets: the answer to each call made on
    the socket of that attempt. [Ret] is success, [Raise e] the exception
    the call raises. *)
Record behaviour : Type := {
  on_socket : result unit;    (* socket.socket(AF_INET, SOCK_STREAM) *)
  on_connect : result unit;   (* sock.connect((IP, port)) *)
  on_sendall : result unit;   (* sock.sendall(bytes) *)
  on_recv : result string     (* sock.recv(4096) *)
}.

(** Everything the driver does to the outside, in the order it does it.
    Sockets are numbered by the connection attempt that created them. *)
Inductive event : Type :=
| SerWrite (bytes : string) (ok : bool)
| SerReadline (r : result string)
| SerFlush (ok : bool)
| SerClose
| SockCreate (id : nat) (ok : bool)
| SockConnect (id : nat) (ok : bool)
| SockSendall (id : nat) (bytes : string) (ok : bool)
| SockRecv (id : nat) (r : result string)
| SockClose (id : nat)
| Sleep (ms : nat)
| Print (items : list string).

Record world : Type := {
  serial : nat -> result string;   (* answer to the n-th call on the port *)
  serial_calls : nat;              (* calls made on the port so far *)
  network : nat -> behaviour;      (* what the n-th connection attempt meets *)
  connections : nat;               (* socket.socket() calls made so far *)
  log : list event
}.

Definition new_world (ser : nat -> result string) (net : nat -> behaviour) : world :=
  {| serial := ser; serial_calls := 0; network := net; connections := 0; log := [] |}.

Definition emit (e : event) (w : world) : world :=
  {| serial := serial w; serial_calls := serial_calls w;
     network := network w; connections := connections w;
     log := log w ++ [e] |}.

Definition tick_serial (w : world) : world :=
  {| serial := serial w; serial_calls := S (serial_calls w);
     network := network w; connections := connections w;
     log := log w |}.

Definition tick_connection (w : world) : world :=
  {| serial := serial w; serial_calls := serial_calls w;
     network := network w; connections := S (connections w);
     log := log w |}.

(** ** Computations: state and exceptions *)

Definition M (St A : Type) : Type := St -> result A * St.

Definition ret {St A} (a : A) : M St A := fun s => (Ret a, s).

Definition raise {St A} (e : exn) : M St A := fun s => (Raise e, s).

Definition bind {St A B} (m : M St A) (k : A -> M St B) : M St B :=
  fun s => match m s with
           | (Ret a, s') => k a s'
           | (Raise e, s') => (Raise e, s')
           end.

Declare Scope py_scope.
Delimit Scope py_scope with py.
Notation "x <- c ;; k" := (bind c (fun x => k))
  (at level 100, c at next level, right associativity) : py_scope.
Notation "c ;; k" := (bind c (fun _ => k))
  (at level 100, right associativity) : py_scope.
Local Open Scope py_scope.

(** A pure step that may raise. *)
Definition lift {St A} (r : result A) : M St A := fun s => (r, s).

(** [try: body  except E: handler], where [catches] says which exceptions
    are instances of [E] (all of them for a bare [except:]). *)
Definition try_except {St A} (body : M St A) (catches : exn -> bool)
    (handler : M St A) : M St A :=
  fun s => match body s with
           | (Raise e, s') => if catches e then handler s' else (Raise e, s')
           | r => r
           end.

Definition any_exception (e : exn) : bool := true.

Definition is_socket_error (e : exn) : bool :=
  match e with SocketError => true | _ => false end.

(** Local variables [L] of a function body on top of the world. *)
Definition outer {L A} (m : M world A) : M (L * world) A :=
  fun '(l, w) => let '(r, w') := m w in (r, (l, w')).

Definition with_locals {L A} (l0 : L) (m : M (L * world) A) : M world A :=
  fun w => let '(r, (_, w')) := m (l0, w) in (r, w').

Definition get_locals {L} : M (L * world) L := fun '(l, w) => (Ret l, (l, w)).

Definition set_locals {L} (l : L) : M (L * world) unit := fun '(_, w) => (Ret tt, (l, w)).

(** [d[k]] on a dict with string keys. *)
Definition dict_getitem {V} (d : gmap string V) (k : string) : result V :=
  match d !! k with
  | Some v => Ret v
  | None => Raise (KeyError k)
  end.

(** *** Primitive effects *)

Definition print (items : list string) : M world unit :=
  fun w => (Ret tt, emit (Print items) w).

(** [time.sleep], in milliseconds. The wait always completes here: a
    keyboard interrupt that ends a wait early is outside this model. *)
Definition sleep (ms : nat) : M world unit :=
  fun w => (Ret tt, emit (Sleep ms) w).

Definition sys_exit {A} : M world A := raise SystemExit.

Definition unit_of {A} (r : result A) : result unit :=
  match r with Ret _ => Ret tt | Raise e => Raise e end.

Definition ser_write (bytes : string) : M world unit :=
  fun w => let r := unit_of (serial w (serial_calls w)) in
           (r, emit (SerWrite bytes (returns r)) (tick_serial w)).

Definition ser_readline : M world string :=
  fun w => let r := serial w (serial_calls w) in
           (r, emit (SerReadline r) (tick_serial w)).

Definition ser_flush : M world unit :=
  fun w => let r := unit_of (serial w (serial_calls w)) in
           (r, emit (SerFlush (returns r)) (tick_serial w)).

Definition ser_close : M world unit :=
  fun w => (Ret tt, emit SerClose w).

(** The connection attempt in progress: the last [socket.socket()] call. *)
Definition current (w : world) : behaviour := network w (pred (connections w)).

(** [socket.socket(...)]: a new attempt starts; the socket is numbered by it. *)
Definition socket_socket : M world nat :=
  fun w => let id := connections w in
           match on_socket (network w id) with
           | Ret _ => (Ret id, emit (SockCreate id true) (tick_connection w))
           | Raise e => (Raise e, emit (SockCreate id false) (tick_connection w))
           end.

Definition sock_connect (id : nat) : M world unit :=
  fun w => let r := on_connect (current w) in
           (r, emit (SockConnect id (returns r)) w).

Definition sock_sendall (id : nat) (bytes : string) : M world unit :=
  fun w => let r := on_sendall (current w) in
           (r, emit (SockSendall id bytes (returns r)) w).

Definition sock_recv (id : nat) : M world string :=
  fun w => let r := on_recv (current w) in
           (r, emit (SockRecv id r) w).

(** [sock.close()] of Python 2 only drops the reference: it does not raise. *)
Definition sock_close (id : nat) : M world unit :=
  fun w => (Ret tt, emit (SockClose id) w).

(** ** The driver *)

Definition LF : ascii := "010"%char.
Definition CR : ascii := "013"%char.

(** An instance of one of the two classes: its device dictionary and the
    methods that the second class overrides, reached through [self]. *)
Record controller : Type := {
  self_devices : gmap string string;
  self_readValue : string -> string -> M world string;
  self_setValue : string -> M world unit
}.

(** *** class temperatureController(object) *)

Module temperatureController.

(** [defineDevices]: the device addresses, by key. *)
Definition defineDevices : gmap string string :=
  list_to_map [("db7", "DEV:DB7.T1:TEMP"); ("db6", "DEV:DB6.T1:TEMP");
               ("mb1", "DEV:MB1.T1:TEMP")].

Definition writeValue (value : string) : M world unit :=
  ser_write (value ++ String LF (String CR "")) ;;
  sleep 3000.

Definition readValue (value : string) (readPrefix : string) : M world string :=
  writeValue (readPrefix ++ value) ;;
  line <- ser_readline ;;
  let string := Py.rstrip line in
  ser_flush ;;
  ret string.

Definition setValue (value : string) : M world unit :=
  writeValue ("SET:" ++ value) ;;
  line <- ser_readline ;;
  let string := Py.rstrip line in
  ret tt.

Definition close : M world unit := ser_close.

Section Inherited.

Variable self : controller.

Definition getVersion : M world string :=
  string <- self_readValue self "*IDN?" "" ;;
  ret string.

Definition getDevices : M world unit :=
  devices <- self_readValue self "SYS:CAT" "READ:" ;;
  print [devices].

(** [getSignal], line 61: the last field of the answer, split on colons. *)
Definition parseResponse (raw : string) : result string :=
  Py.last_item (Py.split ":" raw).

Definition siPrefixes : gmap string Py.float :=
  list_to_map [("M", Py.literal "1e6"); ("k", Py.literal "1e3");
               ("m", Py.literal "1e-3"); (String "181" "", Py.literal "1e-6");
               ("n", Py.literal "1e-9"); ("p", Py.literal "1e-12")].

(** [getSignal], lines 63 to 72: from the last field to a float. *)
Definition decode (ans : string) : M world Py.float :=
  c <- lift (Py.getitem ans (-2)) ;;
  if Py.isdigit c then
    lift (Py.float_of_string (Py.slice_to ans (-2)))
  else
    try_except
      (x <- lift (Py.float_of_string (Py.slice_to ans (-2))) ;;
       k <- lift (Py.getitem ans (-2)) ;;
       f <- lift (dict_getitem siPrefixes k) ;;
       ret (Py.fmul x f))
      any_exception
      (print ["Ans: "; ans] ;;
       raise ValueError).

Definition getSignal (device signal : string) : M world Py.float :=
  address <- lift (dict_getitem (self_devices self) device) ;;
  raw <- self_readValue self (address ++ ":SIG:" ++ signal) "READ:" ;;
  ans <- lift (parseResponse raw) ;;
  decode ans.

Definition getSensorInformation (device : string) (includeTemperature : bool)
    : M world (list Py.float) :=
  v <- getSignal device "VOLT" ;;
  c <- getSignal device "CURR" ;;
  r <- getSignal device "RES" ;;
  if includeTemperature then
    t <- getSignal device "TEMP" ;;
    ret [v; c; r; t]
  else
    ret [v; c; r].

End Inherited.

(** An instance, as [__init__] leaves it. *)
Definition new : controller :=
  {| self_devices := defineDevices; self_readValue := readValue;
     self_setValue := setValue |}.

End temperatureController.

(** *** class temperatureControllerEthernet(temperatureController) *)

Module temperatureControllerEthernet.

(** The local variables of [readValue]; [None] is an unbound name for
    [sock] and the value [None] for [data]. *)
Record locals : Type := { sock : option nat; data : option string }.

Definition writeValue (value : string) : M world unit :=
  sock <- try_except socket_socket is_socket_error
            (print ["Failed to create socket"] ;; sys_exit) ;;
  sock_connect sock ;;
  try_except (sock_sendall sock (value ++ String CR (String LF "")))
    is_socket_error
    (print ["Send failed"] ;; sys_exit) ;;
  sock_close sock.

(** Reading the name [sock]. *)
Definition the_sock : M (locals * world) nat :=
  l <- get_locals ;;
  match sock l with
  | Some id => ret id
  | None => raise UnboundLocalError
  end.

(** The body of the outer [try] of [readValue], up to the [break]. *)
Definition attempt (bytes : string) : M (locals * world) unit :=
  try_except
    (id <- outer socket_socket ;;
     l <- get_locals ;;
     set_locals {| sock := Some id; data := data l |})
    is_socket_error
    (outer (print ["Failed to create socket"])) ;;
  s <- the_sock ;;
  outer (sock_connect s) ;;
  try_except
    (s <- the_sock ;; outer (sock_sendall s bytes))
    is_socket_error
    (outer (print ["Send failed"])) ;;
  s <- the_sock ;;
  d <- outer (sock_recv s) ;;
  l <- get_locals ;;
  set_locals {| sock := sock l; data := Some (Py.rstrip d) |} ;;
  s <- the_sock ;;
  outer (sock_close s).

(** [for retry in range(5): try: ... break  except: ...]. *)
Fixpoint retry_loop (bytes : string) (retries : list nat) : M (locals * world) unit :=
  match retries with
  | [] => ret tt
  | retry :: rest =>
      broke <- try_except
                 (attempt bytes ;; ret true)
                 any_exception
                 (outer (print ["Communication failed on attempt "; Py.str_nat retry]) ;;
                  outer (sleep 1000) ;;
                  ret false) ;;
      if (broke : bool) then ret tt else retry_loop bytes rest
  end.

Definition readValue (value : string) (readPrefix : string) : M world string :=
  sleep 100 ;;
  with_locals {| sock := None; data := None |}
    (retry_loop (readPrefix ++ value ++ String CR (String LF "")) (seq 0 5) ;;
     l <- get_locals ;;
     match data l with
     | Some d => ret d
     | None =>
         outer (print ["Communication failed 5 times, aborting"]) ;;
         outer sys_exit
     end).

Definition getDevices : M world unit :=
  devices <- readValue "SYS:CAT" "READ:" ;;
  print [devices].

Definition setValue (value : string) : M world unit :=
  writeValue ("SET:" ++ value).

Definition close : M world unit := ret tt.

Definition new : controller :=
  {| self_devices := temperatureController.defineDevices;
     self_readValue := readValue; self_setValue := setValue |}.

End temperatureControllerEthernet.

(** ** Reading the claims: tables and observers of the specification *)

(** The decimal exponent of each recognised SI prefix character:
    M, k, m, the byte B5 (micro sign in Latin-1), n, p. *)
Definition prefixExponent (p : ascii) : option Z :=
  if Ascii.eqb p "M" then Some 6%Z
  else if Ascii.eqb p "k" then Some 3%Z
  else if Ascii.eqb p "m" then Some (-3)%Z
  else if Ascii.eqb p "181" then Some (-6)%Z
  else if Ascii.eqb p "n" then Some (-9)%Z
  else if Ascii.eqb p "p" then Some (-12)%Z
  else None.

(** The float of the factor [10^e]. *)
Definition prefixFactor (e : Z) : Py.float := Py.of_decimal false 1 e.

(** The decimal rendering of a mantissa: an optional minus sign, the digits
    [ip] of the integer part, a point, the digits [fp] of the fraction. The
    mantissa it denotes is [(-1)^neg * digits_value (ip ++ fp) * 10^(-|fp|)]. *)
Fixpoint digit_string (ds : list nat) : string :=
  match ds with
  | [] => ""
  | d :: r => String (Py.digit_char d) (digit_string r)
  end.

Fixpoint digits_value (ds : list nat) (acc : Z) : Z :=
  match ds with
  | [] => acc
  | d :: r => digits_value r (10 * acc + Z.of_nat d)%Z
  end.

Definition numeral (neg : bool) (ip fp : list nat) : string :=
  (if neg then "-" else "") ++ digit_string ip ++ String "." (digit_string fp).

(** The float of the mantissa that [numeral neg ip fp] denotes. *)
Definition mantissa (neg : bool) (ip fp : list nat) : Py.float :=
  Py.of_decimal neg (digits_value fp (digits_value ip 0)) (0 - Z.of_nat (length fp)).

(** *** Exact values

    Rationals give floats and decimal numerals their exact values, so that
    the rounding of [float] and of the product can be measured. *)

Section ExactValues.

Local Open Scope Q_scope.

(** Half an ulp of a normal binary64 value, relative to it: [2^-53]. *)
Definition eps : Q := 1 # (2 ^ 53).

(** The tolerance of a decoded value: three roundings, [2^-51]. *)
Definition tol : Q := 1 # (2 ^ 51).

(** [2^k] as a rational. *)
Definition two_pow (k : nat) : Q := inject_Z (2 ^ Z.of_nat k).

(** Powers of two and ten with integer exponents, as rationals. *)
Definition pow2 (e : Z) : Q := 2 ^ e.

Definition pow10 (e : Z) : Q := 10 ^ e.

(** The magnitude of a finite float. *)
Definition magnitude (m : positive) (e : Z) : Q := inject_Z (Zpos m) * pow2 e.

(** The sign and the magnitude of a float that is zero or finite. *)
Definition float_parts (x : Py.float) : option (bool * Q) :=
  match x with
  | S754_zero s => Some (s, 0)
  | S754_finite s m e => Some (s, magnitude m e)
  | _ => None
  end.

(** The magnitude of the mantissa with digits [ip].[fp], times [10^e]. *)
Definition scaled_mantissa (ip fp : list nat) (e : Z) : Q :=
  inject_Z (digits_value fp (digits_value ip 0)) * pow10 (e - Z.of_nat (length fp)).

(** Where a positive rational [u] lies between the integers [m] and
    [m + 1], as [SpecFloat] records it while it shifts a mantissa. *)
Definition located (m : Z) (l : location) (u : Q) : Prop :=
  match l with
  | loc_Exact => u == inject_Z m
  | loc_Inexact Lt => inject_Z m < u /\ u < inject_Z m + (1#2)
  | loc_Inexact Eq => u == inject_Z m + (1#2)
  | loc_Inexact Gt => inject_Z m + (1#2) < u /\ u < inject_Z m + 1
  end.

Definition located_record (r : shr_record) (u : Q) : Prop :=
  located (shr_m r) (loc_of_shr_record r) u.

End ExactValues.

(** A payload: a body followed by the two bytes [c] and [u]. *)
Definition payload (body : string) (c u : ascii) : string :=
  body ++ String c (String u "").

(** [sep.join(fields)]. *)
Fixpoint join (sep : ascii) (fields : list string) : string :=
  match fields with
  | [] => ""
  | [f] => f
  | f :: fs => f ++ String sep (join sep fs)
  end.

Fixpoint has_char (c : ascii) (s : string) : bool :=
  match s with
  | EmptyString => false
  | String a r => Ascii.eqb a c || has_char c r
  end.

Fixpoint count_events (p : event -> bool) (l : list event) : nat :=
  match l with
  | [] => 0
  | e :: r => (if p e then 1 else 0) + count_events p r
  end.

Definition is_create (e : event) : bool :=
  match e with SockCreate _ _ => true | _ => false end.

(** The back-off of the retry loop: [time.sleep(1)]. *)
Definition is_backoff (e : event) : bool :=
  match e with Sleep 1000 => true | _ => false end.

Definition raises {A} (r : result A) : bool := negb (returns r).

(** The send raises something that the inner handler does not catch. *)
Definition send_escapes (b : behaviour) : bool :=
  match on_sendall b with
  | Raise e => negb (is_socket_error e)
  | Ret _ => false
  end.

(** Connecting, sending or receiving raises to the retry handler. *)
Definition transfer_fails (b : behaviour) : bool :=
  raises (on_connect b) || send_escapes b || raises (on_recv b).

(** A socket was created in one of the attempts [0 .. k-1] of a read that
    started at connection [base]: the name [sock] is bound. *)
Definition sock_bound (net : nat -> behaviour) (base k : nat) : bool :=
  existsb (fun j => returns (on_socket (net (base + j)%nat))) (seq 0 k).

(** Attempt [k] of a read that started at connection [base] ends in the
    handler of the retry loop. *)
Definition attempt_fails (net : nat -> behaviour) (base k : nat) : bool :=
  let b := net (base + k)%nat in
  match on_socket b with
  | Ret _ => transfer_fails b
  | Raise e =>
      negb (is_socket_error e) || negb (sock_bound net base k) || transfer_fails b
  end.

(** Connection attempts and back-offs take turns: after a connection
    attempt ([Some true]) comes a back-off before the next attempt, and a
    back-off comes only after an attempt. [None] is a violation. *)
Definition spacing_step (st : option bool) (e : event) : option bool :=
  match st with
  | None => None
  | Some pending =>
      if is_create e then (if pending then None else Some true)
      else if is_backoff e then (if pending then Some false else None)
      else Some pending
  end.

(** Every connection attempt of [evs] is followed by one back-off before
    the next attempt; [last] says whether the last attempt is still
    without its back-off. *)
Definition backed_off (evs : list event) (last : bool) : Prop :=
  fold_left spacing_step evs (Some false) = Some last.

(** The first attempt among [k .. k+n-1] that does not fail, if any. *)
Fixpoint first_ok (net : nat -> behaviour) (base k n : nat) : option nat :=
  match n with
  | O => None
  | S n' => if attempt_fails net base k then first_ok net base (S k) n' else Some k
  end.

(** The calls a user of the serial driver makes from the console. *)
Inductive call : Type :=
| CallReadValue (value readPrefix : string)
| CallSetValue (value : string)
| CallGetVersion
| CallGetDevices
| CallGetSignal (device signal : string)
| CallGetSensorInformation (device : string) (includeTemperature : bool).

Definition void {A} (m : M world A) : M world unit := _ <- m ;; ret tt.

Definition perform (self : controller) (c : call) : M world unit :=
  match c with
  | CallReadValue v p => void (self_readValue self v p)
  | CallSetValue v => self_setValue self v
  | CallGetVersion => void (temperatureController.getVersion self)
  | CallGetDevices => temperatureController.getDevices self
  | CallGetSignal d s => void (temperatureController.getSignal self d s)
  | CallGetSensorInformation d t =>
      void (temperatureController.getSensorInformation self d t)
  end.

(** A console session: one call after the other, whether or not a call
    ended in an exception. *)
Fixpoint session (self : controller) (cs : list call) (w : world) : world :=
  match cs with
  | [] => w
  | c :: rest => session self rest (snd (perform self c w))
  end.

(** The claim that a command terminates the process only once its five
    attempts are used up. *)
Definition fatal_only_when_exhausted {A} (cmd : M world A) (w : world) : Prop :=
  fst (cmd w) = Raise SystemExit ->
  connections (snd (cmd w)) = (connections w + 5)%nat.

(** A name is bound. *)
Definition bound {A} (o : option A) : bool :=
  match o with Some _ => true | None => false end.

(** [w'] is [w] after [n] more connection attempts that logged [evs]. *)
Definition extends (w w' : world) (n : nat) (evs : list event) : Prop :=
  serial w' = serial w /\ serial_calls w' = serial_calls w /\
  network w' = network w /\ connections w' = (connections w + n)%nat /\
  log w' = log w ++ evs.

(** The calls on the serial port and on sockets, without console and clock. *)
Definition on_wire (e : event) : bool :=
  match e with
  | Sleep _ | Print _ => false
  | _ => true
  end.

Fixpoint wire (l : list event) : list event :=
  match l with
  | [] => []
  | e :: r => if on_wire e then e :: wire r else wire r
  end.

(** The events of a completed exchange on socket [id]. *)
Definition exchange (id : nat) (bytes : string) (sent : bool) (raw : string)
    : list event :=
  [SockConnect id true; SockSendall id bytes sent; SockRecv id (Ret raw);
   SockClose id].

(** *** Sample environments *)

(** The digits of the mantissa 7.000000. *)
Definition sample_ip : list nat := [7].
Definition sample_fp : list nat := [0; 0; 0; 0; 0; 0].

(** A connection attempt on which everything works and [reply] arrives. *)
Definition answering (reply : string) : behaviour :=
  {| on_socket := Ret tt; on_connect := Ret tt; on_sendall := Ret tt;
     on_recv := Ret reply |}.

(** A connection attempt refused by the peer. *)
Definition refused : behaviour :=
  {| on_socket := Ret tt; on_connect := Raise SocketError; on_sendall := Ret tt;
     on_recv := Raise SocketError |}.

(** A connection attempt on which the send fails. *)
Definition send_broken : behaviour :=
  {| on_socket := Ret tt; on_connect := Ret tt; on_sendall := Raise SocketError;
     on_recv := Raise SocketError |}.

(** A network that refuses the first [n] attempts and then answers. *)
Definition recovering (n : nat) (reply : string) (k : nat) : behaviour :=
  if (k <? n)%nat then refused else answering reply.

(** A world with a silent serial line and a network that always refuses. *)
Definition dead_world : world :=
  new_world (fun _ => Ret "") (fun _ => refused).

(** A network on which the send of the first attempt fails and every later
    attempt works. *)
Definition first_send_broken (k : nat) : behaviour :=
  match k with O => send_broken | _ => answering "ok" end.

(** What a write on the network variant comes to, by what its one
    connection attempt meets. *)
Definition write_result (b : behaviour) : result unit :=
  match on_socket b with
  | Raise e => if is_socket_error e then Raise SystemExit else Raise e
  | Ret _ =>
      match on_connect b with
      | Raise e => Raise e
      | Ret _ =>
          match on_sendall b with
          | Raise e => if is_socket_error e then Raise SystemExit else Raise e
          | Ret _ => Ret tt
          end
      end
  end.

(** ** Further observers and sample environments *)

(** The bytes that an event hands to the port or to a socket. *)
Definition command_of (e : event) : option string :=
  match e with
  | SerWrite bytes _ => Some bytes
  | SockSendall _ bytes _ => Some bytes
  | _ => None
  end.

(** The commands of a log, in the order they went out. *)
Definition commands (l : list event) : list string := omap command_of l.

Fixpoint all_space (s : string) : bool :=
  match s with
  | EmptyString => true
  | String c r => Py.isspace_char c && all_space r
  end.

Fixpoint last_char (s : string) : option ascii :=
  match s with
  | EmptyString => None
  | String c EmptyString => Some c
  | String _ r => last_char r
  end.

(** The string does not end in white space. *)
Definition ends_clean (s : string) : bool :=
  match last_char s with
  | Some c => negb (Py.isspace_char c)
  | None => true
  end.

Definition is_ser_write (e : event) : bool :=
  match e with SerWrite _ _ => true | _ => false end.

(** The world after [n] more calls on the port that logged [evs]. *)
Definition after_port_calls (w : world) (n : nat) (evs : list event) : world :=
  {| serial := serial w; serial_calls := n + serial_calls w;
     network := network w; connections := connections w;
     log := log w ++ evs |}.

(** A serial line on which every call works and every line read is [line]. *)
Definition steady_line (line : string) : world :=
  new_world (fun _ => Ret line) (fun _ => refused).

(** A network on which every attempt works and [reply] arrives. *)
Definition answering_world (reply : string) : world :=
  new_world (fun _ => Ret "") (fun _ => answering reply).

(** The signals that [getSensorInformation] asks for, in its order. *)
Definition sensor_signals (includeTemperature : bool) : list string :=
  ["VOLT"; "CURR"; "RES"] ++ (if includeTemperature then ["TEMP"] else []).


(** The serial line with its clock: idle, a command just written (the
    driver has to wait), or waited for and not read yet. [None] is a
    violation: a port call that failed, a command not followed at once by
    the wait of three seconds and then by a line read, or a line read
    without a command. *)
Inductive line_state : Type := Idle | Settling | Awaiting.

Definition settle_step (st : option line_state) (e : event) : option line_state :=
  match st with
  | None => None
  | Some Idle =>
      match e with
      | SerWrite _ true => Some Settling
      | SerWrite _ false => None
      | SerReadline _ => None
      | SerFlush false => None
      | _ => Some Idle
      end
  | Some Settling =>
      match e with
      | Sleep 3000 => Some Awaiting
      | _ => None
      end
  | Some Awaiting =>
      match e with
      | SerReadline (Ret _) => Some Idle
      | _ => None
      end
  end.

Definition settled (l : list event) : bool :=
  match fold_left settle_step l (Some Idle) with
  | Some Idle => true
  | _ => false
  end.

(** A computation that, when it returns, has added complete exchanges
    only to the log. *)
Definition conducts {A} (m : M world A) : Prop :=
  forall w, returns (fst (m w)) = true ->
            exists evs, log (snd (m w)) = log w ++ evs /\
                        fold_left settle_step evs (Some Idle) = Some Idle.

(** A connection attempt on which [sendall] raises [socket.error] and
    [reply] arrives all the same. *)
Definition unsent (reply : string) : behaviour :=
  {| on_socket := Ret tt; on_connect := Ret tt; on_sendall := Raise SocketError;
     on_recv := Ret reply |}.

(** Every call of a session returns. *)
Fixpoint all_return (self : controller) (cs : list call) (w : world) : bool :=
  match cs with
  | [] => true
  | c :: rest =>
      returns (fst (perform self c w)) && all_return self rest (snd (perform self c w))
  end.

Definition is_recv (e : event) : bool :=
  match e with SockRecv _ _ => true | _ => false end.

Definition is_close (e : event) : bool :=
  match e with SockClose _ => true | _ => false end.

(** The world after [n] more connection attempts that logged [evs]. *)
Definition after_attempts (w : world) (n : nat) (evs : list event) : world :=
  {| serial := serial w; serial_calls := serial_calls w;
     network := network w; connections := n + connections w;
     log := log w ++ evs |}.

(** A network on which no socket can be created. *)
Definition no_sockets (k : nat) : behaviour :=
  {| on_socket := Raise SocketError; on_connect := Ret tt; on_sendall := Ret tt;
     on_recv := Ret "" |}.

(** A network whose first attempt is refused, on whose second attempt no
    socket can be created, and on which everything else works. *)
Definition second_socket_missing (reply : string) (k : nat) : behaviour :=
  match k with
  | 0 => refused
  | 1 => {| on_socket := Raise SocketError; on_connect := Ret tt; on_sendall := Ret tt;
            on_recv := Ret reply |}
  | _ => answering reply
  end.

(** A serial line on which the flush after the first read fails. *)
Definition flush_broken (line : string) : world :=
  new_world (fun n => match n with 2 => Raise SerialException | _ => Ret line end)
    (fun _ => refused).

(** * Properties *)

(** ** Strings: indexing from the end, slicing, splitting *)

Lemma length_payload body c u :
  String.length (payload body c u) = S (S (String.length body)).
Proof.
  unfold payload. induction body as [|a body IH]; simpl; [reflexivity|].
  now rewrite IH.
Qed.

Lemma get_payload body c u :
  String.get (String.length body) (payload body c u) = Some c.
Proof.
  unfold payload. induction body as [|a body IH]; simpl; [reflexivity|exact IH].
Qed.

Lemma substring_payload body c u :
  String.substring 0 (String.length body) (payload body c u) = body.
Proof.
  unfold payload. induction body as [|a body IH]; simpl; [reflexivity|].
  now rewrite IH.
Qed.

(** [ans[-2]] of a payload is its last byte but one. *)
Lemma getitem_payload body c u :
  Py.getitem (payload body c u) (-2) = Ret (String c "").
Proof.
  unfold Py.getitem. rewrite length_payload.
  replace (-2 <? 0)%Z with true by reflexivity.
  replace (-2 + Z.of_nat (S (S (String.length body))))%Z
    with (Z.of_nat (String.length body)) by lia.
  replace (Z.of_nat (String.length body) <? 0)%Z with false
    by (symmetry; apply Z.ltb_ge; lia).
  replace (Z.of_nat (S (S (String.length body))) <=? Z.of_nat (String.length body))%Z
    with false by (symmetry; apply Z.leb_gt; lia).
  simpl. rewrite Nat2Z.id, get_payload. reflexivity.
Qed.

(** [ans[:-2]] of a payload is its body. *)
Lemma slice_payload body c u :
  Py.slice_to (payload body c u) (-2) = body.
Proof.
  unfold Py.slice_to. rewrite length_payload.
  replace (-2 <? 0)%Z with true by reflexivity.
  replace (Z.max 0 (-2 + Z.of_nat (S (S (String.length body)))))
    with (Z.of_nat (String.length body)) by lia.
  rewrite Nat2Z.id. apply substring_payload.
Qed.

(** A string of fewer than two bytes has no last byte but one. *)
Lemma getitem_short ans :
  (String.length ans < 2)%nat -> Py.getitem ans (-2) = Raise IndexError.
Proof.
  intros H. unfold Py.getitem.
  replace (-2 <? 0)%Z with true by reflexivity.
  replace (-2 + Z.of_nat (String.length ans) <? 0)%Z with true
    by (symmetry; apply Z.ltb_lt; lia).
  reflexivity.
Qed.

(** Every string of at least two bytes is a payload. *)
Lemma payload_of_long ans :
  (2 <= String.length ans)%nat -> exists body c u, ans = payload body c u.
Proof.
  induction ans as [|a r IH]; simpl; intros H; [lia|].
  destruct r as [|b r'].
  - simpl in H. lia.
  - destruct r' as [|b' r''].
    + exists "", a, b. reflexivity.
    + destruct IH as (body & c & u & E); [simpl; lia|].
      exists (String a body), c, u. rewrite E. reflexivity.
Qed.

Lemma isdigit_one c : Py.isdigit (String c "") = Py.isdigit_char c.
Proof. unfold Py.isdigit. simpl. apply andb_true_r. Qed.

Lemma split_not_nil sep s : Py.split sep s <> [].
Proof.
  destruct s as [|c r]; simpl; [discriminate|].
  destruct (Ascii.eqb c sep); [discriminate|].
  destruct (Py.split sep r); discriminate.
Qed.

(** Joining the fields of a split gives the string back. *)
Lemma join_split sep s : join sep (Py.split sep s) = s.
Proof.
  induction s as [|c r IH]; simpl; [reflexivity|].
  destruct (Ascii.eqb c sep) eqn:E.
  - apply Ascii.eqb_eq in E. subst c.
    pose proof (split_not_nil sep r) as Hne.
    destruct (Py.split sep r) as [|f fs]; [contradiction|].
    simpl. simpl in IH. now rewrite IH.
  - pose proof (split_not_nil sep r) as Hne.
    destruct (Py.split sep r) as [|f fs]; [contradiction|].
    simpl in *. destruct fs; simpl in *; now rewrite <- IH.
Qed.

(** No field of a split contains the separator. *)
Lemma split_fields_clean sep s :
  Forall (fun f => has_char sep f = false) (Py.split sep s).
Proof.
  induction s as [|c r IH]; simpl.
  - constructor; [reflexivity|constructor].
  - destruct (Ascii.eqb c sep) eqn:E.
    + constructor; [reflexivity|exact IH].
    + destruct (Py.split sep r) as [|f fs]; simpl.
      * constructor; [simpl; now rewrite E|constructor].
      * inversion IH; subst. constructor; [simpl; now rewrite E|assumption].
Qed.

Lemma last_item_app {A} (l : list A) (x : A) : Py.last_item (l ++ [x]) = Ret x.
Proof.
  induction l as [|a l IH]; simpl; [reflexivity|].
  destruct (l ++ [x]) eqn:E; [destruct l; discriminate|exact IH].
Qed.

Lemma last_item_some {A} (l : list A) :
  l <> [] -> exists front x, l = front ++ [x] /\ Py.last_item l = Ret x.
Proof.
  intros H. destruct (exists_last H) as (front & x & ->).
  exists front, x. split; [reflexivity|apply last_item_app].
Qed.

(** ** Decimal numerals and [float] *)

Lemma digit_char_facts d :
  (d < 10)%nat ->
  Py.isdigit_char (Py.digit_char d) = true /\
  Py.digit_val (Py.digit_char d) = Z.of_nat d /\
  Py.isspace_char (Py.digit_char d) = false /\
  Py.tolower (Py.digit_char d) = Py.digit_char d /\
  Py.digit_char d <> "-"%char /\ Py.digit_char d <> "+"%char /\
  Py.digit_char d <> "i"%char /\ Py.digit_char d <> "n"%char.
Proof.
  intros H.
  do 10 (destruct d as [|d]; [repeat split; discriminate|]). lia.
Qed.

(** Reading the digits of a digit string: all of them, up to [rest]. *)
Lemma digits_digit_string ds :
  Forall (fun d => (d < 10)%nat) ds ->
  forall rest acc n,
    match rest with String c _ => Py.isdigit_char c = false | EmptyString => True end ->
    Py.digits (digit_string ds ++ rest) acc n =
    (digits_value ds acc, (n + length ds)%nat, rest).
Proof.
  induction 1 as [|d ds Hd _ IH]; intros rest acc n Hrest.
  - change (digit_string [] ++ rest)%string with rest.
    cbn [digits_value length]. replace (n + 0)%nat with n by lia.
    destruct rest as [|c r]; [reflexivity|]. cbn [Py.digits]. now rewrite Hrest.
  - destruct (digit_char_facts d Hd) as (Hdig & Hval & _).
    cbn [digit_string digits_value length].
    change (String (Py.digit_char d) (digit_string ds) ++ rest)%string
      with (String (Py.digit_char d) (digit_string ds ++ rest)).
    cbn [Py.digits]. rewrite Hdig, Hval, IH by assumption.
    f_equal. f_equal. lia.
Qed.

Lemma append_empty s : (s ++ "")%string = s.
Proof.
  induction s as [|a t IH]; [reflexivity|].
  change (String a t ++ "")%string with (String a (t ++ "")). now rewrite IH.
Qed.

Lemma match_nocase_head a p c s :
  Py.tolower c <> a -> Py.match_nocase (String a p) (String c s) = None.
Proof.
  intros H. cbn. destruct (Ascii.eqb (Py.tolower c) a) eqn:E; [|reflexivity].
  apply Ascii.eqb_eq in E. contradiction.
Qed.

(** The unsigned part of a numeral starts with a digit or with the point. *)
Lemma unsigned_head ip fp :
  Forall (fun d => (d < 10)%nat) ip ->
  exists c r,
    (digit_string ip ++ String "." (digit_string fp))%string = String c r /\
    Py.isspace_char c = false /\ Py.tolower c = c /\
    c <> "-"%char /\ c <> "+"%char /\ c <> "i"%char /\ c <> "n"%char.
Proof.
  intros H. destruct H as [|d ds Hd _].
  - exists "."%char, (digit_string fp). repeat split; discriminate.
  - destruct (digit_char_facts d Hd) as (_ & _ & A & B & C & D & E & F).
    exists (Py.digit_char d), (digit_string ds ++ String "." (digit_string fp))%string.
    repeat split; assumption.
Qed.

Lemma sign_unsigned c r :
  c <> "-"%char -> c <> "+"%char -> Py.sign (String c r) = (false, String c r).
Proof.
  intros Hm Hp. unfold Py.sign.
  destruct c as [[] [] [] [] [] [] [] []]; try reflexivity; congruence.
Qed.

(** [float] of a numeral with at least one digit is the float of the
    mantissa it denotes. *)
Lemma float_of_numeral neg ip fp :
  Forall (fun d => (d < 10)%nat) ip ->
  Forall (fun d => (d < 10)%nat) fp ->
  (0 < length ip + length fp)%nat ->
  Py.float_of_string (numeral neg ip fp) = Ret (mantissa neg ip fp).
Proof.
  intros Hip Hfp Hlen.
  destruct (unsigned_head ip fp Hip) as (c & r & Hu & Hsp & Hlow & Hm & Hp & Hi & Hn).
  assert (Py.sign (numeral neg ip fp)
          = (neg, (digit_string ip ++ String "." (digit_string fp))%string)) as Hsign.
  { unfold numeral. destruct neg; [reflexivity|].
    change ("" ++ ?x)%string with x. rewrite Hu. now apply sign_unsigned. }
  assert (Py.lstrip (numeral neg ip fp) = numeral neg ip fp) as Hstrip.
  { unfold numeral. destruct neg; [reflexivity|].
    change ("" ++ ?x)%string with x. rewrite Hu. cbn. now rewrite Hsp. }
  assert (Py.parse_inf_or_nan (numeral neg ip fp) = None) as Hinf.
  { unfold Py.parse_inf_or_nan. rewrite Hsign, Hu.
    rewrite !match_nocase_head by (rewrite Hlow; assumption). reflexivity. }
  assert (Py.parse_decimal (numeral neg ip fp) = Some (mantissa neg ip fp, "")) as Hdec.
  { unfold Py.parse_decimal. rewrite Hsign.
    rewrite (digits_digit_string ip Hip) by reflexivity.
    pose proof (digits_digit_string fp Hfp "" (digits_value ip 0) 0 I) as Hf.
    cbn [Nat.add] in *.
    rewrite append_empty in Hf. rewrite Hf.
    destruct (length ip + length fp)%nat eqn:E; [lia|].
    reflexivity. }
  unfold Py.float_of_string, Py.parse_number. rewrite Hstrip, Hinf, Hdec. reflexivity.
Qed.

(** ** The decode step of [getSignal] *)

Import temperatureController.

Lemma float_of_string_cases s :
  (exists x, Py.float_of_string s = Ret x) \/ Py.float_of_string s = Raise ValueError.
Proof.
  unfold Py.float_of_string.
  destruct (Py.parse_number (Py.lstrip s)) as [[x rest]|]; [|now right].
  destruct (Py.lstrip rest); [left; now exists x|now right].
Qed.

(** Case analysis on the chain of comparisons of [prefixExponent]: [known]
    closes the goal for a recognised byte; the last goal has the six
    disequalities. *)
Ltac by_prefix H known :=
  unfold prefixExponent in H;
  repeat match type of H with
         | (if Ascii.eqb ?a ?b then _ else _) = _ =>
             let E := fresh "E" in
             destruct (Ascii.eqb a b) eqn:E;
             [apply Ascii.eqb_eq in E; subst a; known|apply Ascii.eqb_neq in E]
         end.

(** The keys of [siPrefixes] are the six prefix characters, each with the
    float of its power of ten. *)
Lemma siPrefixes_known p e :
  prefixExponent p = Some e -> siPrefixes !! String p "" = Some (prefixFactor e).
Proof.
  intros H.
  by_prefix H ltac:(inversion H; subst e; vm_compute; reflexivity).
  discriminate.
Qed.

Lemma siPrefixes_unknown c :
  prefixExponent c = None -> siPrefixes !! String c "" = None.
Proof.
  intros H. by_prefix H ltac:(discriminate).
  unfold siPrefixes. simpl.
  repeat (rewrite lookup_insert_ne by congruence).
  apply lookup_empty.
Qed.

Lemma prefix_not_digit p e : prefixExponent p = Some e -> Py.isdigit_char p = false.
Proof.
  intros H. by_prefix H ltac:(reflexivity). discriminate.
Qed.

(** What [decode] does on a payload, by the last byte but one [c]. *)
Lemma decode_payload body c u w :
  decode (payload body c u) w =
  if Py.isdigit_char c then (Py.float_of_string body, w)
  else match Py.float_of_string body, siPrefixes !! String c "" with
       | Ret x, Some f => (Ret (Py.fmul x f), w)
       | _, _ => (Raise ValueError, emit (Print ["Ans: "; payload body c u]) w)
       end.
Proof.
  unfold decode, bind, lift, try_except, dict_getitem, any_exception, print, raise, ret.
  rewrite getitem_payload, slice_payload, isdigit_one.
  destruct (Py.isdigit_char c); [reflexivity|].
  destruct (Py.float_of_string body) as [x|e]; [|reflexivity].
  destruct (siPrefixes !! String c ""); reflexivity.
Qed.

Lemma decode_short ans w :
  (String.length ans < 2)%nat -> decode ans w = (Raise IndexError, w).
Proof.
  intros H. unfold decode, bind, lift. now rewrite getitem_short.
Qed.

(** Reading [ans[-2]] succeeds exactly on payloads. *)
Lemma getitem_ret ans k :
  Py.getitem ans (-2) = Ret k ->
  exists c u, ans = payload (Py.slice_to ans (-2)) c u /\ k = String c "".
Proof.
  intros H.
  destruct (Nat.lt_ge_cases (String.length ans) 2) as [Hs|Hl].
  - rewrite getitem_short in H by assumption. discriminate.
  - destruct (payload_of_long ans Hl) as (body & c & u & ->).
    rewrite getitem_payload in H. inversion H; subst k.
    exists c, u. now rewrite slice_payload.
Qed.

(** ** Rounding: how far a float is from the number it stands for *)

Section Rounding.

Local Open Scope Q_scope.

Lemma inject_Z_xO p : inject_Z (Zpos p~0) == 2 * inject_Z (Zpos p).
Proof. unfold Qeq. cbn. lia. Qed.

Lemma inject_Z_xI p : inject_Z (Zpos p~1) == 2 * inject_Z (Zpos p) + 1.
Proof. unfold Qeq. cbn. lia. Qed.

Lemma shr_1_located r u :
  (0 <= shr_m r)%Z ->
  located_record r u ->
  located_record (shr_1 r) (u * (1#2)) /\ shr_m (shr_1 r) = (shr_m r / 2)%Z.
Proof.
  destruct r as [m rb sb]. unfold located_record. cbn [shr_m].
  intros Hm H.
  destruct m as [|p|p]; [| |lia].
  - split; [|reflexivity].
    destruct rb, sb; cbn in *; change (inject_Z 0) with 0 in *; lra.
  - destruct p as [p|p|].
    + pose proof (inject_Z_xI p) as E.
      split; [|cbn; rewrite Pos2Z.inj_xI; rewrite Z.add_comm, Z.mul_comm, Z.div_add by lia; reflexivity].
      destruct rb, sb; cbn in *; lra.
    + pose proof (inject_Z_xO p) as E.
      split; [|cbn; rewrite Pos2Z.inj_xO; rewrite Z.mul_comm, Z.div_mul by lia; reflexivity].
      destruct rb, sb; cbn in *; lra.
    + split; [|reflexivity].
      destruct rb, sb; cbn in *; change (inject_Z 0) with 0 in *;
      change (inject_Z 1) with 1 in *; lra.
Qed.

Lemma located_ext m l u u' : u == u' -> located m l u -> located m l u'.
Proof.
  intros E. unfold located. destruct l as [|[]]; intros H; try lra.
Qed.

Lemma iter_pos_nat {A} (f : A -> A) p :
  forall x, SpecFloat.iter_pos f p x = Nat.iter (Pos.to_nat p) f x.
Proof.
  induction p as [p IH|p IH|]; intros x; cbn [SpecFloat.iter_pos].
  - rewrite !IH, Pos2Nat.inj_xI.
    replace (S (2 * Pos.to_nat p)) with (Pos.to_nat p + (Pos.to_nat p + 1))%nat by lia.
    rewrite !Nat.iter_add. reflexivity.
  - rewrite !IH, Pos2Nat.inj_xO.
    replace (2 * Pos.to_nat p)%nat with (Pos.to_nat p + Pos.to_nat p)%nat by lia.
    rewrite Nat.iter_add. reflexivity.
  - reflexivity.
Qed.

Lemma two_pow_pos k : 0 < two_pow k.
Proof.
  unfold two_pow. change 0 with (inject_Z 0). rewrite <- Zlt_Qlt.
  apply Z.pow_pos_nonneg; lia.
Qed.

Lemma two_pow_S k : two_pow (S k) == 2 * two_pow k.
Proof.
  unfold two_pow. rewrite Nat2Z.inj_succ, Z.pow_succ_r by lia.
  rewrite inject_Z_mult. reflexivity.
Qed.

Lemma iter_shr_located k :
  forall r u,
    (0 <= shr_m r)%Z ->
    located_record r (u * two_pow k) ->
    located_record (Nat.iter k shr_1 r) u /\
    shr_m (Nat.iter k shr_1 r) = (shr_m r / 2 ^ Z.of_nat k)%Z.
Proof.
  induction k as [|k IH]; intros r u Hm H.
  - cbn [Nat.iter]. split.
    + revert H. apply located_ext. change (two_pow 0) with 1. lra.
    + cbn. now rewrite Z.div_1_r.
  - change (Nat.iter (S k) shr_1 r) with (shr_1 (Nat.iter k shr_1 r)).
    destruct (IH r (u * 2)) as (H1 & H2); [assumption| |].
    { revert H. apply located_ext. rewrite two_pow_S. lra. }
    destruct (shr_1_located (Nat.iter k shr_1 r) (u * 2)) as (H3 & H4).
    { rewrite H2. apply Z.div_pos; [assumption|]. apply Z.pow_pos_nonneg; lia. }
    { exact H1. }
    split.
    + revert H3. apply located_ext. lra.
    + rewrite H4, H2, Nat2Z.inj_succ, Z.pow_succ_r by lia.
      rewrite Z.div_div by (try apply Z.pow_pos_nonneg; lia).
      f_equal. lia.
Qed.

Lemma digits2_pos_bounds p :
  (2 ^ (Zpos (digits2_pos p) - 1) <= Zpos p < 2 ^ Zpos (digits2_pos p))%Z.
Proof.
  induction p as [p IH|p IH|]; cbn [digits2_pos].
  - rewrite Pos2Z.inj_succ. change (Z.pos p~1) with (2 * Z.pos p + 1)%Z.
    replace (Z.succ (Zpos (digits2_pos p)) - 1)%Z
      with (Z.succ (Zpos (digits2_pos p) - 1)) by lia.
    rewrite !Z.pow_succ_r by lia.
    revert IH.
    generalize (2 ^ (Z.pos (digits2_pos p) - 1))%Z (2 ^ Z.pos (digits2_pos p))%Z.
    intros; lia.
  - rewrite Pos2Z.inj_succ. change (Z.pos p~0) with (2 * Z.pos p)%Z.
    replace (Z.succ (Zpos (digits2_pos p)) - 1)%Z
      with (Z.succ (Zpos (digits2_pos p) - 1)) by lia.
    rewrite !Z.pow_succ_r by lia.
    revert IH.
    generalize (2 ^ (Z.pos (digits2_pos p) - 1))%Z (2 ^ Z.pos (digits2_pos p))%Z.
    intros; lia.
  - cbn. lia.
Qed.

Lemma Zdigits2_bounds m :
  (0 < m)%Z -> (2 ^ (Zdigits2 m - 1) <= m < 2 ^ Zdigits2 m)%Z /\ (0 < Zdigits2 m)%Z.
Proof.
  destruct m as [|p|p]; try lia. intros _. cbn [Zdigits2].
  split; [apply digits2_pos_bounds|lia].
Qed.

Lemma Zdigits2_unique m k :
  (0 < k)%Z -> (2 ^ (k - 1) <= m < 2 ^ k)%Z -> Zdigits2 m = k.
Proof.
  intros Hk [Hlo Hhi].
  assert (0 < m)%Z as Hm.
  { assert (0 < 2 ^ (k - 1))%Z by (apply Z.pow_pos_nonneg; lia). lia. }
  destruct (Zdigits2_bounds m Hm) as ([Dlo Dhi] & Dpos).
  destruct (Z.lt_trichotomy (Zdigits2 m) k) as [H|[H|H]]; [|assumption|].
  - assert (2 ^ Zdigits2 m <= 2 ^ (k - 1))%Z by (apply Z.pow_le_mono_r; lia). lia.
  - assert (2 ^ k <= 2 ^ (Zdigits2 m - 1))%Z by (apply Z.pow_le_mono_r; lia). lia.
Qed.

Lemma round_nearest_even_located m l u :
  located m l u ->
  (round_nearest_even m l = m \/ round_nearest_even m l = (m + 1)%Z) /\
  - (1#2) <= inject_Z (round_nearest_even m l) - u <= 1#2.
Proof.
  unfold located, round_nearest_even. intros H.
  assert (inject_Z (m + 1) == inject_Z m + 1) as E
    by (rewrite inject_Z_plus; reflexivity).
  destruct l as [|[]]; try destruct (Z.even m); (split; [auto|]); lra.
Qed.

Lemma located_lower m l u : located m l u -> inject_Z m <= u.
Proof. unfold located. destruct l as [|[]]; lra. Qed.

Lemma shr_nat r e n :
  (0 <= n)%Z -> shr r e n = (Nat.iter (Z.to_nat n) shr_1 r, (e + n)%Z).
Proof.
  intros Hn. unfold shr. destruct n as [|p|p]; [|rewrite iter_pos_nat|lia].
  - now rewrite Z.add_0_r.
  - reflexivity.
Qed.

Lemma record_of_loc m l :
  shr_m (shr_record_of_loc m l) = m /\
  loc_of_shr_record (shr_record_of_loc m l) = l.
Proof. destruct l as [|[]]; split; reflexivity. Qed.

Lemma scale_bounds x y c s :
  0 < s -> - c <= x - y <= c -> - (c * s) <= x * s - y * s <= c * s.
Proof.
  intros Hs [H1 H2].
  assert (0 <= (x - y + c) * s) by (apply Qmult_le_0_compat; lra).
  assert (0 <= (c - (x - y)) * s) by (apply Qmult_le_0_compat; lra).
  lra.
Qed.

Lemma binary_round_aux_normal sx mx ex lx u :
  (0 < mx)%Z ->
  (53 <= Zdigits2 mx)%Z ->
  located mx lx u ->
  (-1074 <= Zdigits2 mx + ex - 53)%Z ->
  (Zdigits2 mx + ex - 53 + 1 <= 971)%Z ->
  exists m k,
    binary_round_aux 53 1024 sx mx ex lx = S754_finite sx m (ex + Z.of_nat k) /\
    (Zdigits2 mx - 53 <= Z.of_nat k <= Zdigits2 mx - 52)%Z /\
    (2 ^ 52 <= Zpos m < 2 ^ 53)%Z /\
    - (eps * u) <= inject_Z (Zpos m) * two_pow k - u <= eps * u.
Proof.
  intros Hpos Hd Hloc Hmin Hmax.
  destruct (Zdigits2_bounds mx Hpos) as ([Dlo Dhi] & _).
  set (d := Zdigits2 mx) in *.
  set (k1 := Z.to_nat (d - 53)).
  assert (Z.of_nat k1 = d - 53)%Z as Hk1 by (unfold k1; lia).
  unfold binary_round_aux, shr_fexp, fexp, emin. fold d.
  replace (Z.max (d + ex - 53) (3 - 1024 - 53) - ex)%Z with (d - 53)%Z by lia.
  rewrite shr_nat by lia. fold k1.
  destruct (record_of_loc mx lx) as (Rm & Rl).
  destruct (iter_shr_located k1 (shr_record_of_loc mx lx) (u / two_pow k1))
    as (H1 & H2).
  { rewrite Rm. lia. }
  { unfold located_record. rewrite Rm, Rl. revert Hloc. apply located_ext.
    pose proof (two_pow_pos k1). field. lra. }
  set (r1 := Nat.iter k1 shr_1 (shr_record_of_loc mx lx)) in *.
  rewrite Rm in H2.
  assert (2 ^ 52 <= shr_m r1 < 2 ^ 53)%Z as Hm1.
  { rewrite H2, Hk1.
    assert (0 < 2 ^ (d - 53))%Z by (apply Z.pow_pos_nonneg; lia).
    assert (2 ^ (d - 1) = 2 ^ 52 * 2 ^ (d - 53))%Z as E1
      by (rewrite <- Z.pow_add_r by lia; f_equal; lia).
    assert (2 ^ d = 2 ^ 53 * 2 ^ (d - 53))%Z as E2
      by (rewrite <- Z.pow_add_r by lia; f_equal; lia).
    split.
    - apply Z.div_le_lower_bound; lia.
    - apply Z.div_lt_upper_bound; lia. }
  unfold located_record in H1.
  destruct (round_nearest_even_located _ _ _ H1) as (Hm2 & Herr).
  pose proof (located_lower _ _ _ H1) as Hlow.
  set (m2 := round_nearest_even (shr_m r1) (loc_of_shr_record r1)) in *.
  assert (2 ^ 52 <= m2 <= 2 ^ 53)%Z as Hm2' by lia.
  pose proof (two_pow_pos k1) as HT.
  assert (inject_Z (2 ^ 52) <= inject_Z (shr_m r1)) as Hq by (rewrite <- Zle_Qle; lia).
  assert (- (eps * u) <= inject_Z m2 * two_pow k1 - u <= eps * u) as Hbound.
  { set (u1 := u / two_pow k1) in *.
    assert (u == u1 * two_pow k1) as Eu by (unfold u1; field; lra).
    assert (- (eps * u1) <= inject_Z m2 - u1 <= eps * u1) as Hb1.
    { change (inject_Z (2 ^ 52)%Z) with (4503599627370496 # 1) in Hq.
      unfold eps. change (2 ^ 53)%positive with 9007199254740992%positive. lra. }
    pose proof (scale_bounds _ _ _ _ HT Hb1) as Hs.
    clearbody u1. rewrite Eu. lra. }
  destruct (Z.eq_dec m2 (2 ^ 53)%Z) as [Htop|Hnot].
  - (* the mantissa was rounded up to the next power of two *)
    rewrite Htop.
    replace (Zdigits2 (2 ^ 53)%Z) with 54%Z by reflexivity.
    replace (Z.max (54 + (ex + (d - 53)) - 53) (3 - 1024 - 53) - (ex + (d - 53)))%Z
      with 1%Z by lia.
    cbn [shr shr_record_of_loc SpecFloat.iter_pos].
    change (shr_m (shr_1 {| shr_m := (2 ^ 53)%Z; shr_r := false; shr_s := false |}))
      with (Zpos (2 ^ 52)).
    cbv iota.
    replace (ex + (d - 53) + 1 <=? 1024 - 53)%Z with true
      by (symmetry; apply Z.leb_le; lia).
    exists (2 ^ 52)%positive, (S k1). split; [|split; [|split]].
    + f_equal. lia.
    + fold d. lia.
    + change (Z.pos (2 ^ 52)) with (2 ^ 52)%Z. lia.
    + rewrite two_pow_S. rewrite Htop in Hbound.
      change (inject_Z (2 ^ 53)%Z) with (2 * inject_Z (Z.pos (2 ^ 52))) in Hbound.
      lra.
  - assert (Zdigits2 m2 = 53)%Z as Hd2 by (apply Zdigits2_unique; lia).
    rewrite Hd2.
    replace (Z.max (53 + (ex + (d - 53)) - 53) (3 - 1024 - 53) - (ex + (d - 53)))%Z
      with 0%Z by lia.
    cbn [shr]. destruct (record_of_loc m2 loc_Exact) as (Rm2 & _). rewrite Rm2.
    destruct m2 as [|m|m]; try lia.
    replace (ex + (d - 53) <=? 1024 - 53)%Z with true
      by (symmetry; apply Z.leb_le; lia).
    exists m, k1. split; [|split; [|split]].
    + f_equal. lia.
    + fold d. lia.
    + lia.
    + exact Hbound.
Qed.

Lemma pow2_pos e : 0 < pow2 e.
Proof. apply Qpower_0_lt. reflexivity. Qed.

Lemma pow10_pos e : 0 < pow10 e.
Proof. apply Qpower_0_lt. reflexivity. Qed.

Lemma pow2_add a b : pow2 (a + b) == pow2 a * pow2 b.
Proof. apply Qpower_plus. discriminate. Qed.

Lemma pow10_add a b : pow10 (a + b) == pow10 a * pow10 b.
Proof. apply Qpower_plus. discriminate. Qed.

Lemma pow2_nat k : pow2 (Z.of_nat k) == two_pow k.
Proof.
  unfold pow2, two_pow. rewrite Zpower_Qpower by lia. reflexivity.
Qed.

Lemma pow2_Z k : (0 <= k)%Z -> pow2 k == inject_Z (2 ^ k).
Proof. intros H. unfold pow2. rewrite Zpower_Qpower by lia. reflexivity. Qed.

Lemma pow10_Z k : (0 <= k)%Z -> pow10 k == inject_Z (10 ^ k).
Proof. intros H. unfold pow10. rewrite Zpower_Qpower by lia. reflexivity. Qed.

Lemma pow2_le a b : (a <= b)%Z -> pow2 a <= pow2 b.
Proof. intros H. apply Qpower_le_compat_l; [assumption|discriminate]. Qed.

Lemma magnitude_pos m e : 0 < magnitude m e.
Proof.
  unfold magnitude. apply Qmult_lt_0_compat; [|apply pow2_pos].
  change 0 with (inject_Z 0). rewrite <- Zlt_Qlt. lia.
Qed.

(** The product of two normal floats: correctly signed, normal, and within
    a relative [2^-53] of the exact product. *)
Lemma SFmul_accurate sa ma ea sb mb eb :
  (2 ^ 52 <= Zpos ma < 2 ^ 53)%Z ->
  (2 ^ 52 <= Zpos mb < 2 ^ 53)%Z ->
  (-1126 <= ea + eb <= 917)%Z ->
  exists m e,
    SFmul 53 1024 (S754_finite sa ma ea) (S754_finite sb mb eb)
      = S754_finite (xorb sa sb) m e /\
    (ea + eb + 52 <= e <= ea + eb + 54)%Z /\
    (2 ^ 52 <= Zpos m < 2 ^ 53)%Z /\
    - (eps * (magnitude ma ea * magnitude mb eb))
      <= magnitude m e - magnitude ma ea * magnitude mb eb
      <= eps * (magnitude ma ea * magnitude mb eb).
Proof.
  intros Ha Hb He. cbn [SFmul].
  assert (2 ^ 104 <= Zpos (ma * mb) < 2 ^ 106)%Z as HP.
  { rewrite Pos2Z.inj_mul.
    change (2 ^ 104)%Z with (2 ^ 52 * 2 ^ 52)%Z.
    change (2 ^ 106)%Z with (2 ^ 53 * 2 ^ 53)%Z.
    split.
    - apply Z.mul_le_mono_nonneg; lia.
    - apply Z.mul_lt_mono_nonneg; lia. }
  assert (Zdigits2 (Zpos (ma * mb)) = 105 \/ Zdigits2 (Zpos (ma * mb)) = 106)%Z as Hd.
  { destruct (Z.lt_ge_cases (Zpos (ma * mb)) (2 ^ 105)) as [H|H].
    - left. apply Zdigits2_unique; [lia|]. change (105 - 1)%Z with 104%Z. lia.
    - right. apply Zdigits2_unique; [lia|]. change (106 - 1)%Z with 105%Z. lia. }
  destruct (binary_round_aux_normal (xorb sa sb) (Zpos (ma * mb)) (ea + eb) loc_Exact
              (inject_Z (Zpos (ma * mb)))) as (m & k & Hr & Hk & Hm & Herr);
    try lia.
  { reflexivity. }
  exists m, (ea + eb + Z.of_nat k)%Z. split; [exact Hr|].
  split; [lia|]. split; [exact Hm|].
  unfold magnitude.
  rewrite !pow2_add, pow2_nat.
  pose proof (pow2_pos ea) as Pa. pose proof (pow2_pos eb) as Pb.
  rewrite Pos2Z.inj_mul, inject_Z_mult in Herr.
  assert (0 < pow2 ea * pow2 eb) as Ppos by (apply Qmult_lt_0_compat; assumption).
  pose proof (scale_bounds _ _ _ _ Ppos Herr) as Hs.
  lra.
Qed.

Lemma new_location_located T q r :
  (0 < T)%Z -> (0 <= r < T)%Z ->
  located q (new_location T r) (inject_Z q + inject_Z r / inject_Z T).
Proof.
  intros HT Hr.
  assert (0 < inject_Z T) as Ht by (change 0 with (inject_Z 0); rewrite <- Zlt_Qlt; lia).
  assert (0 <= inject_Z r) as Hr0 by (change 0 with (inject_Z 0); rewrite <- Zle_Qle; lia).
  assert (forall a b : Z, (a < b)%Z -> inject_Z a < inject_Z b) as Ilt
    by (intros; now rewrite <- Zlt_Qlt).
  assert (inject_Z (2 * r) == 2 * inject_Z r) as E2
    by (rewrite inject_Z_mult; reflexivity).
  set (x := inject_Z r / inject_Z T).
  assert (x * inject_Z T == inject_Z r) as Ex by (unfold x; field; lra).
  assert (forall c, inject_Z r < c * inject_Z T -> x < c) as Up.
  { intros c H. unfold x. apply Qlt_shift_div_r; assumption. }
  assert (forall c, c * inject_Z T < inject_Z r -> c < x) as Lo.
  { intros c H. unfold x. apply Qlt_shift_div_l; assumption. }
  assert (r = 0%Z -> x == 0) as X0.
  { intros E0. unfold x. rewrite E0. change (inject_Z 0) with 0. field. lra. }
  assert (r <> 0%Z -> 0 < x < 1) as X01.
  { intros E0. split.
    - apply Lo. rewrite Qmult_0_l. change 0 with (inject_Z 0). apply Ilt. lia.
    - apply Up. rewrite Qmult_1_l. apply Ilt. lia. }
  assert ((2 * r)%Z = T -> r <> 0%Z -> x == 1#2) as Xh.
  { intros H E0.
    assert (0 < inject_Z r) as Rpos
      by (change 0 with (inject_Z 0); apply Ilt; lia).
    unfold x. rewrite <- H, E2. field. lra. }
  clearbody x.
  unfold new_location.
  destruct (Z.even T) eqn:Ev; unfold new_location_even, new_location_odd;
    (destruct (Z.eqb r 0) eqn:E0;
     [apply Z.eqb_eq in E0; specialize (X0 E0); cbv beta iota delta [located]; lra
     |apply Z.eqb_neq in E0; specialize (X01 E0)]).
  - destruct (Z.compare_spec (2 * r) T) as [H|H|H]; cbv beta iota delta [located].
    + specialize (Xh H E0). lra.
    + assert (x < 1#2) by (apply Up; apply Ilt in H; lra). lra.
    + assert ((1#2) < x) by (apply Lo; apply Ilt in H; lra). lra.
  - assert (2 * r <> T)%Z as Hodd.
    { intros E. rewrite <- E, Z.even_mul in Ev. discriminate. }
    destruct (Z.compare_spec (2 * r + 1) T) as [H|H|H]; cbv beta iota delta [located].
    + assert (2 * r < T)%Z as H' by lia.
      assert (x < 1#2) by (apply Up; apply Ilt in H'; lra). lra.
    + assert (2 * r < T)%Z as H' by lia.
      assert (x < 1#2) by (apply Up; apply Ilt in H'; lra). lra.
    + assert (T < 2 * r)%Z as H' by lia.
      assert ((1#2) < x) by (apply Lo; apply Ilt in H'; lra). lra.
Qed.

Lemma iter_xO p n : Zpos (Pos.iter xO p n) = (Zpos p * 2 ^ Zpos n)%Z.
Proof.
  rewrite <- Z.shiftl_mul_pow2 by lia. cbn [Z.shiftl].
  apply (Pos.iter_swap_gen _ _ Zpos xO (Z.mul 2)). reflexivity.
Qed.

(** An integer rounded to a float. *)
Lemma binary_round_accurate neg N :
  (Zpos N < 2 ^ 500)%Z ->
  exists m e,
    binary_round 53 1024 neg N 0 = S754_finite neg m e /\
    (-52 <= e <= 450)%Z /\
    (2 ^ 52 <= Zpos m < 2 ^ 53)%Z /\
    - (eps * inject_Z (Zpos N)) <= magnitude m e - inject_Z (Zpos N)
      <= eps * inject_Z (Zpos N).
Proof.
  intros HN.
  destruct (Zdigits2_bounds (Zpos N) ltac:(lia)) as ([Dlo Dhi] & Dpos).
  cbn [Zdigits2] in *. set (d := Zpos (digits2_pos N)) in *.
  assert (d <= 500)%Z as Hd500.
  { destruct (Z.le_gt_cases d 500) as [H|H]; [assumption|].
    assert (2 ^ 500 <= 2 ^ (d - 1))%Z by (apply Z.pow_le_mono_r; lia). lia. }
  unfold binary_round, shl_align, fexp, emin. fold d.
  replace (Z.max (d + 0 - 53) (3 - 1024 - 53) - 0)%Z with (d - 53)%Z by lia.
  destruct (d - 53)%Z as [|s|s] eqn:Es.
  - destruct (binary_round_aux_normal neg (Zpos N) 0 loc_Exact (inject_Z (Zpos N)))
      as (m & k & Hr & Hk & Hm & Herr); cbn [Zdigits2]; fold d; try lia.
    { reflexivity. }
    exists m, (0 + Z.of_nat k)%Z. split; [exact Hr|].
    cbn [Zdigits2] in Hk. fold d in Hk.
    split; [lia|]. split; [exact Hm|].
    unfold magnitude. rewrite Z.add_0_l, pow2_nat. exact Herr.
  - destruct (binary_round_aux_normal neg (Zpos N) 0 loc_Exact (inject_Z (Zpos N)))
      as (m & k & Hr & Hk & Hm & Herr); cbn [Zdigits2]; fold d; try lia.
    { reflexivity. }
    exists m, (0 + Z.of_nat k)%Z. split; [exact Hr|].
    cbn [Zdigits2] in Hk. fold d in Hk.
    split; [lia|]. split; [exact Hm|].
    unfold magnitude. rewrite Z.add_0_l, pow2_nat. exact Herr.
  - replace (Z.max (d + 0 - 53) (3 - 1024 - 53))%Z with (d - 53)%Z by lia.
    set (mz := Pos.iter xO N s).
    assert (Zpos mz = Zpos N * 2 ^ Zpos s)%Z as Hmz by apply iter_xO.
    assert (Zpos s = 53 - d)%Z as Hs by lia.
    assert (2 ^ 52 <= Zpos mz < 2 ^ 53)%Z as Hmzb.
    { rewrite Hmz, Hs.
      assert (0 < 2 ^ (53 - d))%Z by (apply Z.pow_pos_nonneg; lia).
      assert (2 ^ 52 = 2 ^ (d - 1) * 2 ^ (53 - d))%Z as E1
        by (rewrite <- Z.pow_add_r by lia; f_equal; lia).
      assert (2 ^ 53 = 2 ^ d * 2 ^ (53 - d))%Z as E2
        by (rewrite <- Z.pow_add_r by lia; f_equal; lia).
      rewrite E1, E2. split.
      - apply Z.mul_le_mono_nonneg_r; lia.
      - apply Z.mul_lt_mono_pos_r; lia. }
    assert (Zdigits2 (Zpos mz) = 53)%Z as Hdz by (apply Zdigits2_unique; lia).
    destruct (binary_round_aux_normal neg (Zpos mz) (d - 53) loc_Exact (inject_Z (Zpos mz)))
      as (m & k & Hr & Hk & Hm & Herr); rewrite ?Hdz; try lia.
    { reflexivity. }
    exists m, (d - 53 + Z.of_nat k)%Z. split; [exact Hr|].
    split; [lia|]. split; [exact Hm|].
    unfold magnitude. rewrite pow2_add, pow2_nat.
    assert (inject_Z (Zpos N) == inject_Z (Zpos mz) * pow2 (d - 53)) as EN.
    { rewrite Hmz, inject_Z_mult, Hs, <- pow2_Z by lia.
      rewrite <- Qmult_assoc, <- pow2_add.
      replace (53 - d + (d - 53))%Z with 0%Z by lia.
      change (pow2 0) with 1. ring. }
    rewrite EN.
    pose proof (scale_bounds _ _ _ _ (pow2_pos (d - 53)) Herr) as Hsc.
    lra.
Qed.

(** A quotient of integers rounded to a float. *)
Lemma div_round_accurate neg D T :
  (0 < D < 2 ^ 340)%Z -> (0 < T < 2 ^ 340)%Z ->
  exists m e,
    (let '(q, e2, l) := SFdiv_core_binary 53 1024 D 0 T 0 in
     binary_round_aux 53 1024 neg q e2 l) = S754_finite neg m e /\
    (-450 <= e <= 450)%Z /\
    (2 ^ 52 <= Zpos m < 2 ^ 53)%Z /\
    - (eps * (inject_Z D / inject_Z T)) <= magnitude m e - inject_Z D / inject_Z T
      <= eps * (inject_Z D / inject_Z T).
Proof.
  intros HD HT.
  destruct (Zdigits2_bounds D ltac:(lia)) as ([D1lo D1hi] & D1pos).
  destruct (Zdigits2_bounds T ltac:(lia)) as ([D2lo D2hi] & D2pos).
  set (d1 := Zdigits2 D) in *. set (d2 := Zdigits2 T) in *.
  assert (d1 <= 340)%Z as Hd1.
  { destruct (Z.le_gt_cases d1 340) as [H|H]; [assumption|].
    assert (2 ^ 340 <= 2 ^ (d1 - 1))%Z by (apply Z.pow_le_mono_r; lia). lia. }
  assert (d2 <= 340)%Z as Hd2.
  { destruct (Z.le_gt_cases d2 340) as [H|H]; [assumption|].
    assert (2 ^ 340 <= 2 ^ (d2 - 1))%Z by (apply Z.pow_le_mono_r; lia). lia. }
  unfold SFdiv_core_binary, fexp, emin. fold d1 d2.
  set (e' := Z.min (Z.max (d1 + 0 - (d2 + 0) - 53) (3 - 1024 - 53)) (0 - 0)).
  set (s := (0 - 0 - e')%Z).
  assert (0 <= s)%Z as Hs0 by (unfold s, e'; lia).
  assert (e' = - s)%Z as He' by (unfold s; lia).
  assert (53 <= d1 + s - d2)%Z as Hg by (unfold s, e'; lia).
  set (g := (d1 + s - d2)%Z) in *.
  set (m' := match s with Zpos _ => Z.shiftl D s | Z0 => D | Zneg _ => 0%Z end).
  assert (m' = D * 2 ^ s)%Z as Hm'.
  { unfold m'. destruct s as [|p|p] eqn:Es; [cbn; lia| |lia].
    apply Z.shiftl_mul_pow2. lia. }
  clearbody m'.
  pose proof (Z_div_mod m' T ltac:(lia)) as Hdiv.
  unfold Z.div_eucl in Hdiv |- *. fold (Z.div_eucl m' T) in Hdiv |- *.
  destruct (Z.div_eucl m' T) as [q r]. destruct Hdiv as (Hqr & Hr).
  assert (0 < 2 ^ s)%Z as P2s by (apply Z.pow_pos_nonneg; lia).
  assert (2 ^ (g - 1) <= q < 2 ^ (g + 1))%Z as Hq.
  { assert (2 ^ (d1 + s - 1) <= m' < 2 ^ (d1 + s))%Z as Hmb.
    { rewrite Hm'.
      replace (d1 + s - 1)%Z with (d1 - 1 + s)%Z by lia.
      rewrite !Z.pow_add_r by lia. split.
      - apply Z.mul_le_mono_nonneg_r; lia.
      - apply Z.mul_lt_mono_pos_r; lia. }
    assert (2 ^ (d1 + s - 1) = 2 ^ (g - 1) * 2 ^ d2)%Z as E1
      by (rewrite <- Z.pow_add_r by lia; f_equal; unfold g; lia).
    assert (2 ^ (d1 + s) = 2 ^ (g + 1) * 2 ^ (d2 - 1))%Z as E2
      by (rewrite <- Z.pow_add_r by lia; f_equal; unfold g; lia).
    assert (0 < 2 ^ (g - 1))%Z by (apply Z.pow_pos_nonneg; lia).
    assert (0 < 2 ^ (g + 1))%Z by (apply Z.pow_pos_nonneg; lia).
    split.
    - destruct (Z.le_gt_cases (2 ^ (g - 1)) q) as [H'|H']; [assumption|exfalso].
      assert (T * q + r < T * 2 ^ (g - 1))%Z by nia.
      assert (T * 2 ^ (g - 1) <= 2 ^ (g - 1) * 2 ^ d2)%Z by nia.
      lia.
    - destruct (Z.lt_ge_cases q (2 ^ (g + 1))) as [H'|H']; [assumption|exfalso].
      assert (T * 2 ^ (g + 1) <= T * q + r)%Z by nia.
      assert (2 ^ (g + 1) * 2 ^ (d2 - 1) <= T * 2 ^ (g + 1))%Z by nia.
      lia. }
  assert (0 < q)%Z as Hqpos.
  { assert (0 < 2 ^ (g - 1))%Z by (apply Z.pow_pos_nonneg; lia). lia. }
  assert (Zdigits2 q = g \/ Zdigits2 q = g + 1)%Z as Hdq.
  { destruct (Z.lt_ge_cases q (2 ^ g)) as [H|H].
    - left. apply Zdigits2_unique; lia.
    - right. apply Zdigits2_unique; [lia|].
      replace (g + 1 - 1)%Z with g by lia. lia. }
  pose proof (new_location_located T q r ltac:(lia) Hr) as Hloc.
  destruct (binary_round_aux_normal neg q e' (new_location T r)
              (inject_Z q + inject_Z r / inject_Z T)) as (m & k & Hres & Hk & Hm & Herr);
    try assumption; try (unfold g in *; lia).
  exists m, (e' + Z.of_nat k)%Z. split; [exact Hres|].
  split; [unfold g in *; lia|]. split; [exact Hm|].
  unfold magnitude. rewrite pow2_add, pow2_nat.
  assert (0 < inject_Z T) as Tpos
    by (change 0 with (inject_Z 0); rewrite <- Zlt_Qlt; lia).
  assert (inject_Z D / inject_Z T
          == (inject_Z q + inject_Z r / inject_Z T) * pow2 e') as EV.
  { assert (inject_Z m' == inject_Z D * pow2 s) as Em
      by (rewrite Hm', inject_Z_mult, pow2_Z by lia; reflexivity).
    assert (inject_Z m' == inject_Z T * inject_Z q + inject_Z r) as Eqr
      by (rewrite Hqr, inject_Z_plus, inject_Z_mult; reflexivity).
    assert (pow2 s * pow2 e' == 1) as Ep.
    { rewrite <- pow2_add. replace (s + e')%Z with 0%Z by lia. reflexivity. }
    setoid_replace (inject_Z q + inject_Z r / inject_Z T)
      with (inject_Z m' / inject_Z T) using relation Qeq
      by (rewrite Eqr; field; lra).
    rewrite Em.
    setoid_replace (inject_Z D * pow2 s / inject_Z T * pow2 e')
      with (inject_Z D / inject_Z T * (pow2 s * pow2 e')) using relation Qeq
      by (field; lra).
    rewrite Ep. ring. }
  rewrite EV.
  pose proof (scale_bounds _ _ _ _ (pow2_pos e') Herr) as Hsc.
  lra.
Qed.

Lemma three_roundings a b R A B :
  0 < A -> 0 < B ->
  - (eps * A) <= a - A <= eps * A ->
  - (eps * B) <= b - B <= eps * B ->
  - (eps * (a * b)) <= R - a * b <= eps * (a * b) ->
  - (tol * (A * B)) <= R - A * B <= tol * (A * B).
Proof.
  unfold eps, tol.
  change (2 ^ 53)%positive with 9007199254740992%positive.
  change (2 ^ 51)%positive with 2251799813685248%positive.
  intros HA HB Ha Hb HR.
  nra.
Qed.

Lemma inject_Z_pos_lt z : (0 < z)%Z -> 0 < inject_Z z.
Proof. intros H. change 0 with (inject_Z 0). now rewrite <- Zlt_Qlt. Qed.

(** [of_decimal] is accurate: the float of [D * 10^E10] is normal, has the
    given sign, and is within a relative [2^-53] of its argument. *)
Lemma of_decimal_accurate neg D E10 :
  (0 < D < 10 ^ 100)%Z -> (-100 <= E10 <= 40)%Z ->
  exists m e,
    Py.of_decimal neg D E10 = S754_finite neg m e /\
    (-450 <= e <= 450)%Z /\
    (2 ^ 52 <= Zpos m < 2 ^ 53)%Z /\
    - (eps * (inject_Z D * pow10 E10)) <= magnitude m e - inject_Z D * pow10 E10
      <= eps * (inject_Z D * pow10 E10).
Proof.
  intros HD HE. unfold Py.of_decimal, Py.prec, Py.emax.
  destruct D as [|p|p]; try lia.
  destruct (Z.leb_spec 0 E10) as [Hnn|Hneg].
  - assert (0 < 10 ^ E10 <= 10 ^ 40)%Z as HT.
    { split; [apply Z.pow_pos_nonneg; lia|apply Z.pow_le_mono_r; lia]. }
    assert (0 < Zpos p * 10 ^ E10 < 2 ^ 500)%Z as HN.
    { split; [lia|].
      apply Z.lt_le_trans with (10 ^ 100 * 10 ^ 40)%Z; [nia|].
      vm_compute. discriminate. }
    destruct (Zpos p * 10 ^ E10)%Z as [|N|N] eqn:EN; try lia.
    cbn [Z.to_pos].
    destruct (binary_round_accurate neg N ltac:(lia)) as (m & e & Hr & He & Hm & Herr).
    exists m, e. split; [exact Hr|]. split; [lia|]. split; [exact Hm|].
    assert (inject_Z (Zpos N) == inject_Z (Zpos p) * pow10 E10) as EV
      by (rewrite <- EN, inject_Z_mult, pow10_Z by lia; reflexivity).
    rewrite <- EV. exact Herr.
  - set (T := (10 ^ (- E10))%Z).
    assert (0 < T <= 10 ^ 100)%Z as HT.
    { unfold T. split; [apply Z.pow_pos_nonneg; lia|apply Z.pow_le_mono_r; lia]. }
    assert (10 ^ 100 < 2 ^ 340)%Z as Hc by (vm_compute; reflexivity).
    destruct (div_round_accurate neg (Zpos p) T ltac:(lia) ltac:(lia))
      as (m & e & Hr & He & Hm & Herr).
    exists m, e. split; [exact Hr|]. split; [exact He|]. split; [exact Hm|].
    assert (inject_Z (Zpos p) / inject_Z T == inject_Z (Zpos p) * pow10 E10) as EV.
    { unfold T. rewrite <- pow10_Z by lia.
      unfold pow10 at 1. rewrite Qpower_opp. fold (pow10 E10).
      pose proof (pow10_pos E10). field. lra. }
    rewrite <- EV. exact Herr.
Qed.

(** The number that a list of decimal digits denotes. *)
Lemma digits_value_bounds ds :
  Forall (fun d => (d < 10)%nat) ds ->
  forall acc,
    (0 <= acc)%Z ->
    (acc * 10 ^ Z.of_nat (length ds) <= digits_value ds acc
     < (acc + 1) * 10 ^ Z.of_nat (length ds))%Z.
Proof.
  induction 1 as [|d ds Hd _ IH]; intros acc Hacc.
  - cbn. lia.
  - cbn [digits_value length]. rewrite Nat2Z.inj_succ, Z.pow_succ_r by lia.
    specialize (IH (10 * acc + Z.of_nat d)%Z ltac:(lia)).
    assert (0 < 10 ^ Z.of_nat (length ds))%Z by (apply Z.pow_pos_nonneg; lia).
    nia.
Qed.

Lemma prefixExponent_range p e : prefixExponent p = Some e -> (-12 <= e <= 6)%Z.
Proof.
  intros H. by_prefix H ltac:(inversion H; lia). discriminate.
Qed.

Lemma decode_tolerance p e u w neg ip fp :
  prefixExponent p = Some e ->
  Forall (fun d => (d < 10)%nat) ip ->
  Forall (fun d => (d < 10)%nat) fp ->
  (0 < length ip + length fp <= 100)%nat ->
  exists r v,
    decode (payload (numeral neg ip fp) p u) w = (Ret r, w) /\
    float_parts r = Some (neg, v) /\
    - (tol * scaled_mantissa ip fp e) <= v - scaled_mantissa ip fp e
      <= tol * scaled_mantissa ip fp e.
Proof.
  intros Hp Hip Hfp Hlen.
  unfold scaled_mantissa.
  set (D := digits_value fp (digits_value ip 0)) in *.
  pose proof (digits_value_bounds ip Hip 0 ltac:(lia)) as Bi.
  pose proof (digits_value_bounds fp Hfp (digits_value ip 0) ltac:(lia)) as Bf.
  fold D in Bf.
  assert (0 < 10 ^ Z.of_nat (length fp))%Z as P10 by (apply Z.pow_pos_nonneg; lia).
  assert (0 <= D < 10 ^ 100)%Z as HD.
  { split; [nia|].
    assert (D < 10 ^ Z.of_nat (length ip) * 10 ^ Z.of_nat (length fp))%Z as H0 by nia.
    rewrite <- Z.pow_add_r in H0 by lia.
    assert (10 ^ (Z.of_nat (length ip) + Z.of_nat (length fp)) <= 10 ^ 100)%Z
      by (apply Z.pow_le_mono_r; lia).
    lia. }
  pose proof (prefixExponent_range p e Hp) as He.
  destruct (of_decimal_accurate false 1 e ltac:(lia) ltac:(lia))
    as (mb & eb & Hb & Heb & Hmb & Errb).
  assert (decode (payload (numeral neg ip fp) p u) w =
          (Ret (SFmul 53 1024 (Py.of_decimal neg D (0 - Z.of_nat (length fp)))
                  (S754_finite false mb eb)), w)) as Hdec.
  { rewrite decode_payload, (prefix_not_digit p e Hp), float_of_numeral
      by (assumption || lia).
    rewrite (siPrefixes_known p e Hp).
    unfold mantissa, prefixFactor, Py.fmul, Py.prec, Py.emax. fold D.
    rewrite Hb. reflexivity. }
  destruct (Z.eq_dec D 0%Z) as [Hz|Hnz].
  - (* a mantissa of zeros *)
    rewrite Hz in *. exists (S754_zero neg), 0. split; [|split].
    + rewrite Hdec. cbn. now rewrite xorb_false_r.
    + reflexivity.
    + change (inject_Z 0) with 0. lra.
  - destruct (of_decimal_accurate neg D (0 - Z.of_nat (length fp)) ltac:(lia) ltac:(lia))
      as (ma & ea & Ha & Hea & Hma & Erra).
    destruct (SFmul_accurate neg ma ea false mb eb Hma Hmb ltac:(lia))
      as (m & er & Hmul & Her & Hm & Errm).
    rewrite xorb_false_r in Hmul.
    exists (S754_finite neg m er), (magnitude m er). split; [|split].
    + rewrite Hdec, Ha, Hmul. reflexivity.
    + reflexivity.
    + set (A := inject_Z D * pow10 (0 - Z.of_nat (length fp))) in *.
      set (B := inject_Z 1 * pow10 e) in *.
      assert (0 < A) as PA
        by (apply Qmult_lt_0_compat; [apply inject_Z_pos_lt; lia|apply pow10_pos]).
      assert (0 < B) as PB
        by (apply Qmult_lt_0_compat; [reflexivity|apply pow10_pos]).
      assert (inject_Z D * pow10 (e - Z.of_nat (length fp)) == A * B) as EX.
      { unfold A, B. replace (e - Z.of_nat (length fp))%Z
          with ((0 - Z.of_nat (length fp)) + e)%Z by lia.
        rewrite pow10_add. change (inject_Z 1) with 1. ring. }
      rewrite EX.
      exact (three_roundings _ _ _ A B PA PB Erra Errb Errm).
Qed.

End Rounding.

(** C6. When the last byte but one of the payload is a digit, the decode
    step returns exactly [float(ans[:-2])], the float of the payload
    without its last two bytes, with no scaling and no other effect. *)
Theorem decode_unprefixed ans k w :
  Py.getitem ans (-2) = Ret k ->
  Py.isdigit k = true ->
  decode ans w = (Py.float_of_string (Py.slice_to ans (-2)), w) /\
  exists c u, ans = payload (Py.slice_to ans (-2)) c u /\ k = String c "".
Proof.
  intros Hk Hd. destruct (getitem_ret ans k Hk) as (c & u & Hans & ->).
  split; [|now exists c, u].
  rewrite isdigit_one in Hd.
  rewrite Hans at 1. rewrite decode_payload, Hd. reflexivity.
Qed.

Lemma decode_unprefixed_witness :
  decode "293.1500K" dead_world = (Py.float_of_string "293.150", dead_world) /\
  exists c u, "293.1500K" = payload "293.150" c u /\ "0" = String c "".
Proof.
  apply (decode_unprefixed "293.1500K" "0" dead_world); reflexivity.
Defined.

(** C1. For each of the six prefix characters M, k, m, micro (byte B5), n
    and p, a payload made of the decimal rendering of a mantissa, the
    prefix character and a unit letter decodes to the mantissa multiplied
    by the prefix factor 1e6, 1e3, 1e-3, 1e-6, 1e-9, 1e-12, within
    floating-point tolerance: the result has the sign of the mantissa and
    its magnitude is within a relative [2^-51] of the exact product, for
    every mantissa of at most a hundred digits. It is the binary64 product
    of the float of the mantissa and the float of the factor, and so it is
    for every body that [float] accepts. *)
Theorem decode_prefix_scales p e u w :
  prefixExponent p = Some e ->
  (forall neg ip fp,
      Forall (fun d => (d < 10)%nat) ip ->
      Forall (fun d => (d < 10)%nat) fp ->
      (0 < length ip + length fp <= 100)%nat ->
      exists r v,
        decode (payload (numeral neg ip fp) p u) w = (Ret r, w) /\
        float_parts r = Some (neg, v) /\
        (- (tol * scaled_mantissa ip fp e) <= v - scaled_mantissa ip fp e
         <= tol * scaled_mantissa ip fp e)%Q) /\
  (forall neg ip fp,
      Forall (fun d => (d < 10)%nat) ip ->
      Forall (fun d => (d < 10)%nat) fp ->
      (0 < length ip + length fp)%nat ->
      decode (payload (numeral neg ip fp) p u) w =
      (Ret (Py.fmul (mantissa neg ip fp) (prefixFactor e)), w)) /\
  (forall body x,
      Py.float_of_string body = Ret x ->
      decode (payload body p u) w = (Ret (Py.fmul x (prefixFactor e)), w)).
Proof.
  intros Hp.
  assert (forall body x,
             Py.float_of_string body = Ret x ->
             decode (payload body p u) w = (Ret (Py.fmul x (prefixFactor e)), w)) as H.
  { intros body x Hx.
    rewrite decode_payload, (prefix_not_digit p e Hp), Hx, (siPrefixes_known p e Hp).
    reflexivity. }
  split; [|split; [|exact H]].
  - intros neg ip fp Hip Hfp Hlen. now apply decode_tolerance.
  - intros neg ip fp Hip Hfp Hlen. apply H. now apply float_of_numeral.
Qed.

Lemma decode_prefix_scales_witness :
  numeral false sample_ip sample_fp = "7.000000" /\
  (exists r v,
      decode "7.000000mV" dead_world = (Ret r, dead_world) /\
      float_parts r = Some (false, v) /\
      (- (tol * scaled_mantissa sample_ip sample_fp (-3))
       <= v - scaled_mantissa sample_ip sample_fp (-3)
       <= tol * scaled_mantissa sample_ip sample_fp (-3))%Q) /\
  (scaled_mantissa sample_ip sample_fp (-3) == 7 # 1000)%Q /\
  decode "7.000000mV" dead_world = (Ret (Py.literal "0.007"), dead_world).
Proof.
  split; [reflexivity|]. split; [|split; reflexivity].
  apply (proj1 (decode_prefix_scales "m" (-3)%Z "V" dead_world eq_refl)
           false sample_ip sample_fp).
  - repeat constructor.
  - repeat constructor.
  - cbn. lia.
Defined.

(** C4. When the last byte but one of the payload is neither a digit nor one
    of the six prefix characters, the decode step prints the payload and
    raises [ValueError]; it returns no value. *)
Theorem decode_unknown_prefix ans c w :
  Py.getitem ans (-2) = Ret (String c "") ->
  Py.isdigit_char c = false ->
  prefixExponent c = None ->
  decode ans w = (Raise ValueError, emit (Print ["Ans: "; ans]) w) /\
  forall x, fst (decode ans w) <> Ret x.
Proof.
  intros Hk Hd Hp.
  assert (decode ans w = (Raise ValueError, emit (Print ["Ans: "; ans]) w)) as E.
  { destruct (getitem_ret ans _ Hk) as (c' & u & Hans & Hc).
    inversion Hc; subst c'.
    rewrite Hans at 1. rewrite decode_payload, Hd, (siPrefixes_unknown c Hp).
    rewrite <- Hans.
    destruct (Py.float_of_string (Py.slice_to ans (-2))); reflexivity. }
  split; [exact E|]. intros x. rewrite E. discriminate.
Qed.

Lemma decode_unknown_prefix_witness :
  decode "7.000000m V" dead_world =
    (Raise ValueError, emit (Print ["Ans: "; "7.000000m V"]) dead_world) /\
  forall x, fst (decode "7.000000m V" dead_world) <> Ret x.
Proof.
  apply (decode_unknown_prefix "7.000000m V" " " dead_world); reflexivity.
Defined.

(** C10. On a payload of fewer than two bytes the decode step raises
    [IndexError] at [ans[-2]], before anything else happens; on a payload
    of two bytes or more it never raises [IndexError]. *)
Theorem decode_needs_two_bytes ans w :
  ((String.length ans < 2)%nat -> decode ans w = (Raise IndexError, w)) /\
  ((2 <= String.length ans)%nat -> fst (decode ans w) <> Raise IndexError).
Proof.
  split; [apply decode_short|].
  intros Hl. destruct (payload_of_long ans Hl) as (body & c & u & ->).
  rewrite decode_payload.
  destruct (Py.isdigit_char c).
  - simpl. destruct (float_of_string_cases body) as [[x ->]| ->]; discriminate.
  - destruct (Py.float_of_string body); [|discriminate].
    destruct (siPrefixes !! String c ""); discriminate.
Qed.

(** C7. The payload is the last field of the raw line split on colons,
    whatever the fields before it are: the fields joined by colons are the
    raw line, and the last field has no colon. *)
Theorem parseResponse_last_field :
  (forall raw, exists front field,
      Py.split ":" raw = front ++ [field] /\
      parseResponse raw = Ret field /\
      join ":" (front ++ [field]) = raw /\
      has_char ":" field = false) /\
  parseResponse "STAT:SET:DEV:DB7.T1:TEMP:SIG:VOLT:7.000000m V" = Ret "7.000000m V".
Proof.
  split; [|reflexivity].
  intros raw. unfold parseResponse.
  destruct (last_item_some (Py.split ":" raw) (split_not_nil _ _))
    as (front & field & Hs & Hl).
  exists front, field. rewrite Hl. repeat split.
  - exact Hs.
  - rewrite <- Hs. apply join_split.
  - pose proof (split_fields_clean ":" raw) as Hc. rewrite Hs in Hc.
    apply Forall_app in Hc. destruct Hc as [_ Hc]. now inversion Hc.
Qed.

(** ** The retry loop of the network variant *)

Import temperatureControllerEthernet.

Lemma extends_refl w : extends w w 0 [].
Proof.
  unfold extends. repeat split; [lia|now rewrite app_nil_r].
Qed.

Lemma extends_trans w1 w2 w3 n m e1 e2 :
  extends w1 w2 n e1 -> extends w2 w3 m e2 -> extends w1 w3 (n + m) (e1 ++ e2).
Proof.
  unfold extends. intros (A1 & A2 & A3 & A4 & A5) (B1 & B2 & B3 & B4 & B5).
  repeat split; try congruence.
  - lia.
  - rewrite B5, A5. now rewrite <- app_assoc.
Qed.

Lemma count_events_app p l1 l2 :
  count_events p (l1 ++ l2) = (count_events p l1 + count_events p l2)%nat.
Proof. induction l1 as [|e l1 IH]; simpl; [reflexivity|]. rewrite IH. lia. Qed.

Lemma wire_app l1 l2 : wire (l1 ++ l2) = wire l1 ++ wire l2.
Proof.
  induction l1 as [|e l1 IH]; simpl; [reflexivity|].
  destruct (on_wire e); simpl; now rewrite IH.
Qed.

(** One pass through the body of the outer [try]. *)
Lemma attempt_outcome bytes l w :
  let b := network w (connections w) in
  let fails :=
    match on_socket b with
    | Ret _ => transfer_fails b
    | Raise e => negb (is_socket_error e) || negb (bound (sock l)) || transfer_fails b
    end in
  exists r l' w' evs,
    attempt bytes (l, w) = (r, (l', w')) /\
    extends w w' 1 evs /\
    count_events is_create evs = 1%nat /\
    count_events is_backoff evs = 0%nat /\
    backed_off evs true /\
    bound (sock l') = returns (on_socket b) || bound (sock l) /\
    returns r = negb fails /\
    (if fails then data l' = data l
     else exists raw id sent pre,
         on_recv b = Ret raw /\ data l' = Some (Py.rstrip raw) /\
         wire evs = pre ++ exchange id bytes sent raw).
Proof.
  destruct w as [ser sc net cn lg]. destruct l as [sk dt].
  cbn zeta.
  unfold attempt, try_except, outer, socket_socket, sock_connect, sock_sendall,
    sock_recv, sock_close, the_sock, get_locals, set_locals, print, ret, raise,
    bind, current, emit, tick_connection, transfer_fails, send_escapes, raises, extends.
  cbn.
  destruct (on_socket (net cn)) as [[]|e1] eqn:Hs; cbn;
  try (destruct (is_socket_error e1) eqn:E1; cbn);
  try (destruct sk as [s0|]; cbn);
  destruct (on_connect (net cn)) as [[]|e2] eqn:Hc; cbn;
  destruct (on_sendall (net cn)) as [[]|e3] eqn:Hsd; cbn;
  try (destruct (is_socket_error e3) eqn:E3; cbn);
  destruct (on_recv (net cn)) as [raw|e4] eqn:Hr; cbn.
  all: do 4 eexists; split; [reflexivity|].
  all: split; [repeat split; cbn; try lia; rewrite <- ?app_assoc; reflexivity|].
  all: cbn; repeat split.
  all: exists raw; do 2 eexists; eexists [_]; repeat split.
Qed.

Lemma retry_loop_step bytes retry rest l w :
  retry_loop bytes (retry :: rest) (l, w) =
  match attempt bytes (l, w) with
  | (Ret _, s') => (Ret tt, s')
  | (Raise _, (l', w')) =>
      retry_loop bytes rest
        (l', emit (Sleep 1000)
               (emit (Print ["Communication failed on attempt "; Py.str_nat retry]) w'))
  end.
Proof.
  cbn [retry_loop]. unfold bind, try_except, any_exception, outer, print, sleep, ret.
  destruct (attempt bytes (l, w)) as [[[]|e] [l' w']]; reflexivity.
Qed.

Lemma sock_bound_S net base k :
  sock_bound net base (S k) =
  returns (on_socket (net (base + k)%nat)) || sock_bound net base k.
Proof.
  unfold sock_bound. rewrite seq_S, existsb_app. simpl.
  rewrite orb_false_r. apply orb_comm.
Qed.

(** A failed attempt, its report and back-off, and what follows. *)
Lemma backed_off_retry evs1 items evs last :
  backed_off evs1 true -> backed_off evs last ->
  backed_off ((evs1 ++ [Print items; Sleep 1000]) ++ evs) last.
Proof.
  unfold backed_off. intros H1 H2.
  rewrite !fold_left_app, H1. exact H2.
Qed.

(** The loop over the attempts [k .. k+n-1]: it stops at the first attempt
    that does not fail, and backs off after every one that does. *)
Lemma retry_loop_outcome bytes base n :
  forall k l w,
    connections w = (base + k)%nat ->
    data l = None ->
    bound (sock l) = sock_bound (network w) base k ->
    exists l' w' evs,
      retry_loop bytes (seq k n) (l, w) = (Ret tt, (l', w')) /\
      match first_ok (network w) base k n with
      | None =>
          extends w w' n evs /\ data l' = None /\
          count_events is_create evs = n /\ count_events is_backoff evs = n /\
          backed_off evs false
      | Some j =>
          exists raw id sent pre,
            extends w w' (S (j - k)) evs /\
            (k <= j < k + n)%nat /\
            on_recv (network w (base + j)%nat) = Ret raw /\
            data l' = Some (Py.rstrip raw) /\
            count_events is_create evs = S (j - k) /\
            count_events is_backoff evs = (j - k)%nat /\
            backed_off evs true /\
            wire evs = pre ++ exchange id bytes sent raw
      end.
Proof.
  induction n as [|n IH]; intros k l w Hc Hd Hb.
  - exists l, w, []. split; [reflexivity|]. cbn.
    split; [apply extends_refl|]. repeat split; assumption.
  - cbn [seq first_ok]. rewrite retry_loop_step.
    destruct (attempt_outcome bytes l w)
      as (r & l1 & w1 & evs1 & Ha & He & Hn1 & Hn2 & Hsp & Hb1 & Hr & Hdata).
    rewrite Ha. rewrite Hc, Hb in *.
    change (match on_socket (network w (base + k)%nat) with
            | Ret _ => transfer_fails (network w (base + k)%nat)
            | Raise e => negb (is_socket_error e)
                         || negb (sock_bound (network w) base k)
                         || transfer_fails (network w (base + k)%nat)
            end) with (attempt_fails (network w) base k) in *.
    destruct (attempt_fails (network w) base k) eqn:Hf.
    + destruct r as [[]|e]; [discriminate|].
      set (w2 := emit (Sleep 1000)
                   (emit (Print ["Communication failed on attempt "; Py.str_nat k]) w1)).
      assert (extends w1 w2 0
                [Print ["Communication failed on attempt "; Py.str_nat k]; Sleep 1000])
        as He2.
      { unfold extends, w2, emit. cbn. repeat split; [lia|].
        now rewrite <- app_assoc. }
      pose proof (extends_trans _ _ _ _ _ _ _ He He2) as He12.
      destruct He12 as (N1 & N2 & N3 & N4 & N5).
      destruct (IH (S k) l1 w2) as (l' & w' & evs & Hl & Hrest).
      * rewrite N4, Hc. lia.
      * congruence.
      * rewrite N3, sock_bound_S. exact Hb1.
      * exists l', w'. eexists. split; [exact Hl|].
        rewrite N3 in Hrest.
        destruct (first_ok (network w) base (S k) n) as [j|].
        -- destruct Hrest as (raw & id & sent & pre & Hx & Hj & Hrecv & Hd' & C1 & C2 & C3 & Hw).
           exists raw, id, sent. eexists.
           pose proof (extends_trans _ _ _ _ _ _ _
                         (conj N1 (conj N2 (conj N3 (conj N4 N5)))) Hx) as HH.
           replace (1 + 0 + S (j - S k))%nat with (S (j - k)) in HH by lia.
           split; [exact HH|].
           split; [lia|]. split; [exact Hrecv|]. split; [exact Hd'|].
           split; [rewrite !count_events_app, Hn1, C1; cbn; lia|].
           split; [rewrite !count_events_app, Hn2, C2; cbn; lia|].
           split; [exact (backed_off_retry _ _ _ _ Hsp C3)|].
           rewrite !wire_app, Hw. cbn [wire on_wire].
           rewrite app_assoc. reflexivity.
        -- destruct Hrest as (Hx & Hd' & C1 & C2 & C3).
           pose proof (extends_trans _ _ _ _ _ _ _
                         (conj N1 (conj N2 (conj N3 (conj N4 N5)))) Hx) as HH.
           replace (1 + 0 + n)%nat with (S n) in HH by lia.
           split; [exact HH|]. split; [exact Hd'|].
           split; [rewrite !count_events_app, Hn1, C1; cbn; lia|].
           split; [rewrite !count_events_app, Hn2, C2; cbn; lia|].
           exact (backed_off_retry _ _ _ _ Hsp C3).
    + destruct r as [[]|e]; [|discriminate].
      destruct Hdata as (raw & id & sent & pre & Hrecv & Hd' & Hw).
      exists l1, w1, evs1. split; [reflexivity|].
      exists raw, id, sent, pre.
      replace (k - k)%nat with 0%nat by lia.
      split; [exact He|]. repeat split; try assumption; lia.
Qed.

(** A read on the network variant: the first attempt that does not fail
    decides what is returned; when all five fail the process exits. *)
Lemma readValue_outcome value readPrefix w :
  exists w' evs,
    match first_ok (network w) (connections w) 0 5 with
    | None =>
        readValue value readPrefix w = (Raise SystemExit, w') /\
        extends w w' 5
          (Sleep 100 :: evs ++ [Print ["Communication failed 5 times, aborting"]]) /\
        count_events is_create evs = 5%nat /\
        count_events is_backoff evs = 5%nat /\
        backed_off evs false
    | Some j =>
        exists raw id sent pre,
          readValue value readPrefix w = (Ret (Py.rstrip raw), w') /\
          extends w w' (S j) (Sleep 100 :: evs) /\
          (j < 5)%nat /\
          on_recv (network w (connections w + j)%nat) = Ret raw /\
          count_events is_create evs = S j /\
          count_events is_backoff evs = j /\
          backed_off evs true /\
          wire evs =
            pre ++ exchange id (readPrefix ++ value ++ String CR (String LF "")) sent raw
    end.
Proof.
  set (bytes := (readPrefix ++ value ++ String CR (String LF ""))%string).
  set (w0 := emit (Sleep 100) w).
  assert (extends w w0 0 [Sleep 100]) as E0.
  { unfold extends, w0, emit. cbn. repeat split. lia. }
  destruct (retry_loop_outcome bytes (connections w) 5 0
              {| sock := None; data := None |} w0)
    as (l' & w1 & evs & Hl & Hrest).
  { unfold w0. cbn. lia. }
  { reflexivity. }
  { reflexivity. }
  assert (readValue value readPrefix w =
            let '(r', (_, w')) :=
              (match data l' with
               | Some d => ret d
               | None => (outer (print ["Communication failed 5 times, aborting"]) ;;
                          outer sys_exit)%py
               end) (l', w1) in (r', w')) as Hread.
  { unfold readValue, bind at 1, sleep, with_locals. fold w0.
    unfold bind at 1. fold bytes. rewrite Hl. unfold bind at 1, get_locals.
    reflexivity. }
  change (network w0) with (network w) in Hrest.
  destruct (first_ok (network w) (connections w) 0 5) as [j|].
  - destruct Hrest as (raw & id & sent & pre & Hx & Hj & Hrecv & Hd & C1 & C2 & C3 & Hw).
    exists w1, evs, raw, id, sent, pre.
    rewrite Hd in Hread. cbn in Hread.
    replace (j - 0)%nat with j in * by lia.
    split; [exact Hread|].
    split; [exact (extends_trans _ _ _ _ _ _ _ E0 Hx)|].
    repeat split; try assumption; lia.
  - destruct Hrest as (Hx & Hd & C1 & C2 & C3).
    exists (emit (Print ["Communication failed 5 times, aborting"]) w1), evs.
    rewrite Hd in Hread.
    split; [exact Hread|].
    split; [|repeat split; assumption].
    assert (extends w1 (emit (Print ["Communication failed 5 times, aborting"]) w1) 0
              [Print ["Communication failed 5 times, aborting"]]) as E2.
    { unfold extends, emit. cbn. repeat split. lia. }
    pose proof (extends_trans _ _ _ _ _ _ _ (extends_trans _ _ _ _ _ _ _ E0 Hx) E2) as HH.
    replace (0 + 5 + 0)%nat with 5%nat in HH by lia.
    rewrite <- app_assoc in HH. exact HH.
Qed.

Lemma first_ok_none net base n :
  forall k,
    (forall j, (k <= j < k + n)%nat -> attempt_fails net base j = true) ->
    first_ok net base k n = None.
Proof.
  induction n as [|n IH]; intros k H; [reflexivity|].
  cbn [first_ok]. rewrite (H k) by lia. apply IH. intros j Hj. apply H. lia.
Qed.

Lemma first_ok_some net base n :
  forall k i,
    (k <= i < k + n)%nat ->
    (forall j, (k <= j < i)%nat -> attempt_fails net base j = true) ->
    attempt_fails net base i = false ->
    first_ok net base k n = Some i.
Proof.
  induction n as [|n IH]; intros k i Hi H Hok; [lia|].
  cbn [first_ok]. destruct (Nat.eq_dec k i) as [->|Hne].
  - now rewrite Hok.
  - rewrite (H k) by lia. apply IH; [lia| |assumption].
    intros j Hj. apply H. lia.
Qed.

(** A failure to connect or to receive makes the attempt fail. *)
Lemma connect_or_recv_fails net base k :
  raises (on_connect (net (base + k)%nat)) || raises (on_recv (net (base + k)%nat)) = true ->
  attempt_fails net base k = true.
Proof.
  unfold attempt_fails, transfer_fails. intros H.
  destruct (raises (on_connect (net (base + k)%nat))),
           (raises (on_recv (net (base + k)%nat))); try discriminate;
  destruct (on_socket (net (base + k)%nat));
  rewrite ?orb_true_r; reflexivity.
Qed.

(** The inherited [getSignal] on top of a [readValue] that has answered. *)
Lemma getSignal_after_read self device signal address w raw w' :
  self_devices self !! device = Some address ->
  self_readValue self (address ++ ":SIG:" ++ signal)%string "READ:" w = (Ret raw, w') ->
  exists ans, parseResponse raw = Ret ans /\
              getSignal self device signal w = decode ans w'.
Proof.
  intros Hd Hr.
  destruct (last_item_some (Py.split ":" raw) (split_not_nil _ _))
    as (front & ans & _ & Hl).
  exists ans. split; [exact Hl|].
  unfold getSignal, bind at 1, lift at 1, dict_getitem. rewrite Hd.
  unfold bind at 1. rewrite Hr. unfold bind at 1, lift at 1.
  unfold parseResponse in *. rewrite Hl. reflexivity.
Qed.

Lemma getSignal_read_raises self device signal address w e w' :
  self_devices self !! device = Some address ->
  self_readValue self (address ++ ":SIG:" ++ signal)%string "READ:" w = (Raise e, w') ->
  getSignal self device signal w = (Raise e, w').
Proof.
  intros Hd Hr.
  unfold getSignal, bind at 1, lift at 1, dict_getitem. rewrite Hd.
  unfold bind at 1. rewrite Hr. reflexivity.
Qed.

(** C9. For a key that is not in the device dictionary, [getSignal] raises
    [KeyError] with that key, at once: nothing is sent, printed or waited
    for, on either variant. *)
Theorem getSignal_unknown_device self device signal w :
  self_devices self !! device = None ->
  getSignal self device signal w = (Raise (KeyError device), w).
Proof.
  intros H. unfold getSignal, bind, lift, dict_getitem. now rewrite H.
Qed.

Lemma getSignal_unknown_device_witness :
  getSignal temperatureControllerEthernet.new "db9" "TEMP" dead_world =
  (Raise (KeyError "db9"), dead_world).
Proof.
  apply (getSignal_unknown_device temperatureControllerEthernet.new "db9" "TEMP").
  vm_compute. reflexivity.
Defined.

(** C2. On the network variant, when all five attempts of a read fail, the
    read reports it and raises [SystemExit] after five connection attempts
    and five back-offs; it returns nothing, and neither does a [getSignal]
    built on it. *)
Theorem readValue_fatal_after_five_failures value readPrefix w :
  (forall k, (k < 5)%nat -> attempt_fails (network w) (connections w) k = true) ->
  (exists w' evs,
      readValue value readPrefix w = (Raise SystemExit, w') /\
      connections w' = (connections w + 5)%nat /\
      log w' = log w ++ Sleep 100 :: evs
                 ++ [Print ["Communication failed 5 times, aborting"]] /\
      count_events is_create evs = 5%nat /\
      count_events is_backoff evs = 5%nat /\
      backed_off evs false) /\
  (forall device signal x,
      fst (getSignal temperatureControllerEthernet.new device signal w) <> Ret x).
Proof.
  intros Hfail.
  assert (forall v p, exists w' evs,
            readValue v p w = (Raise SystemExit, w') /\
            connections w' = (connections w + 5)%nat /\
            log w' = log w ++ Sleep 100 :: evs
                       ++ [Print ["Communication failed 5 times, aborting"]] /\
            count_events is_create evs = 5%nat /\
            count_events is_backoff evs = 5%nat /\
            backed_off evs false) as Hread.
  { intros v p. destruct (readValue_outcome v p w) as (w' & evs & H).
    rewrite first_ok_none in H by (intros j Hj; apply Hfail; lia).
    destruct H as (Hr & (_ & _ & _ & Hc & Hl) & C1 & C2 & C3).
    exists w', evs. repeat split; assumption. }
  split; [apply Hread|].
  intros device signal x.
  destruct (self_devices temperatureControllerEthernet.new !! device) as [address|] eqn:Hd.
  - destruct (Hread (address ++ ":SIG:" ++ signal)%string "READ:") as (w' & evs & Hr & _).
    rewrite (getSignal_read_raises _ _ _ _ _ _ _ Hd Hr). discriminate.
  - rewrite getSignal_unknown_device by assumption. discriminate.
Qed.

Lemma readValue_fatal_after_five_failures_witness :
  (exists w' evs,
      readValue "DEV:DB7.T1:TEMP:SIG:TEMP" "READ:" dead_world = (Raise SystemExit, w') /\
      connections w' = (connections dead_world + 5)%nat /\
      log w' = log dead_world ++ Sleep 100 :: evs
                 ++ [Print ["Communication failed 5 times, aborting"]] /\
      count_events is_create evs = 5%nat /\
      count_events is_backoff evs = 5%nat /\
      backed_off evs false) /\
  (forall device signal x,
      fst (getSignal temperatureControllerEthernet.new device signal dead_world) <> Ret x).
Proof.
  apply (readValue_fatal_after_five_failures "DEV:DB7.T1:TEMP:SIG:TEMP" "READ:" dead_world).
  intros k Hk. reflexivity.
Defined.

(** A write on the network variant: one connection attempt, no back-off. *)
Lemma writeValue_outcome value w :
  exists w' evs,
    writeValue value w = (write_result (network w (connections w)), w') /\
    extends w w' 1 evs /\
    count_events is_create evs = 1%nat /\
    count_events is_backoff evs = 0%nat.
Proof.
  destruct w as [ser sc net cn lg].
  unfold writeValue, write_result, try_except, socket_socket, sock_connect, sock_sendall,
    sock_close, print, sys_exit, raise, ret, bind, current, emit, tick_connection, extends.
  cbn.
  destruct (on_socket (net cn)) as [[]|e1]; cbn;
  try (destruct (is_socket_error e1); cbn);
  try (destruct (on_connect (net cn)) as [[]|e2]; cbn);
  try (destruct (on_sendall (net cn)) as [[]|e3]; cbn);
  try (destruct (is_socket_error e3); cbn).
  all: do 2 eexists; split; [reflexivity|].
  all: split; [repeat split; cbn; try lia; rewrite <- ?app_assoc; reflexivity|].
  all: cbn; split; reflexivity.
Qed.

(** C5, as the code has it. Reads: a failure to connect and a failure to
    receive are handled alike, each uses up one of the five attempts and is
    followed by the back-off and, while attempts remain, by the next
    attempt; a read ends the process only when its five attempts are used
    up. Writes, [SET] included: one attempt and no retry; a failure to
    create the socket or to send ends the process at once, a failure to
    connect is raised to the caller. *)
Theorem network_failure_handling :
  (forall v p w j raw,
      (j < 5)%nat ->
      (forall i, (i < j)%nat ->
         raises (on_connect (network w (connections w + i)%nat))
         || raises (on_recv (network w (connections w + i)%nat)) = true) ->
      attempt_fails (network w) (connections w) j = false ->
      on_recv (network w (connections w + j)%nat) = Ret raw ->
      exists w' evs,
        readValue v p w = (Ret (Py.rstrip raw), w') /\
        connections w' = (connections w + S j)%nat /\
        log w' = log w ++ Sleep 100 :: evs /\
        count_events is_create evs = S j /\
        count_events is_backoff evs = j /\
        backed_off evs true) /\
  (forall v p w,
      (forall i, (i < 5)%nat ->
         raises (on_connect (network w (connections w + i)%nat))
         || raises (on_recv (network w (connections w + i)%nat)) = true) ->
      fst (readValue v p w) = Raise SystemExit) /\
  (forall v p w, fatal_only_when_exhausted (readValue v p) w) /\
  (forall v w, exists w' evs,
      setValue v w = (write_result (network w (connections w)), w') /\
      connections w' = (connections w + 1)%nat /\
      log w' = log w ++ evs /\
      count_events is_create evs = 1%nat /\
      count_events is_backoff evs = 0%nat).
Proof.
  split; [|split; [|split]].
  - intros v p w j raw Hj Hfail Hok Hraw.
    destruct (readValue_outcome v p w) as (w' & evs & H).
    rewrite (first_ok_some _ _ 5 0 j) in H;
      [|lia|intros i Hi; apply connect_or_recv_fails, Hfail; lia|exact Hok].
    destruct H as (raw' & id & sent & pre & Hr & (_ & _ & _ & Hc & Hl) & _ & Hrecv & C1 & C2 & C3 & _).
    rewrite Hraw in Hrecv. inversion Hrecv; subst raw'.
    exists w', evs. repeat split; assumption.
  - intros v p w Hfail.
    destruct (readValue_outcome v p w) as (w' & evs & H).
    rewrite first_ok_none in H
      by (intros i Hi; apply connect_or_recv_fails, Hfail; lia).
    destruct H as (Hr & _). now rewrite Hr.
  - intros v p w. unfold fatal_only_when_exhausted.
    destruct (readValue_outcome v p w) as (w' & evs & H).
    destruct (first_ok (network w) (connections w) 0 5) as [j|].
    + destruct H as (raw' & id & sent & pre & Hr & _). rewrite Hr. discriminate.
    + destruct H as (Hr & (_ & _ & _ & Hc & _) & _). rewrite Hr. intros _. exact Hc.
  - intros v w. unfold setValue.
    destruct (writeValue_outcome ("SET:" ++ v)%string w)
      as (w' & evs & Hw & (_ & _ & _ & Hc & Hl) & C1 & C2).
    exists w', evs. repeat split; assumption.
Qed.

Lemma network_failure_handling_witness :
  exists w' evs,
    readValue "DEV:DB7.T1:TEMP:SIG:TEMP" "READ:"
      (new_world (fun _ => Ret "") (recovering 2 "STAT:DEV:DB7.T1:TEMP:SIG:TEMP:4.2000K")) =
      (Ret (Py.rstrip "STAT:DEV:DB7.T1:TEMP:SIG:TEMP:4.2000K"), w') /\
    connections w' = 3%nat /\
    log w' = Sleep 100 :: evs /\
    count_events is_create evs = 3%nat /\
    count_events is_backoff evs = 2%nat /\
    backed_off evs true.
Proof.
  apply (proj1 network_failure_handling "DEV:DB7.T1:TEMP:SIG:TEMP" "READ:"
           (new_world (fun _ => Ret "") (recovering 2 "STAT:DEV:DB7.T1:TEMP:SIG:TEMP:4.2000K"))
           2%nat "STAT:DEV:DB7.T1:TEMP:SIG:TEMP:4.2000K").
  - lia.
  - intros i Hi. destruct i as [|[|i]]; [reflexivity|reflexivity|lia].
  - reflexivity.
  - reflexivity.
Defined.

(** C5, as the specification states it, does not hold for writes: when the
    send of a [SET] fails, the process ends after that one attempt, with no
    back-off and no retry, although the next attempt would have worked. *)
Lemma setValue_send_failure_ends_process :
  let w := new_world (fun _ => Ret "") first_send_broken in
  let cmd := setValue "DEV:DB7.T1:TEMP:LOOP:TSET:4.2" in
  fst (cmd w) = Raise SystemExit /\
  connections (snd (cmd w)) = 1%nat /\
  count_events is_backoff (log (snd (cmd w))) = 0%nat /\
  attempt_fails (network w) (connections w) 1 = false /\
  ~ fatal_only_when_exhausted cmd w.
Proof.
  cbv zeta. repeat split; try reflexivity.
  unfold fatal_only_when_exhausted. intros H.
  specialize (H eq_refl). vm_compute in H. discriminate.
Qed.

(** ** A response without a command *)

(** An attempt on which [sendall] raises [socket.error]: the handler
    prints and the attempt goes on to [recv]. *)
Lemma attempt_unsent bytes sk dt w raw :
  on_socket (network w (connections w)) = Ret tt ->
  on_connect (network w (connections w)) = Ret tt ->
  on_sendall (network w (connections w)) = Raise SocketError ->
  on_recv (network w (connections w)) = Ret raw ->
  attempt bytes ({| sock := sk; data := dt |}, w) =
  (Ret tt,
   ({| sock := Some (connections w); data := Some (Py.rstrip raw) |},
    after_attempts w 1
      [SockCreate (connections w) true; SockConnect (connections w) true;
       SockSendall (connections w) bytes false; Print ["Send failed"];
       SockRecv (connections w) (Ret raw); SockClose (connections w)])).
Proof.
  destruct w as [ser sc net cn lg]. cbn. intros H1 H2 H3 H4.
  unfold attempt, try_except, outer, socket_socket, sock_connect, sock_sendall,
    sock_recv, sock_close, the_sock, get_locals, set_locals, print, ret, raise,
    bind, current, emit, tick_connection, after_attempts.
  cbn. rewrite H1. cbn. rewrite H2. cbn. rewrite H3. cbn. rewrite H4. cbn.
  now rewrite <- !app_assoc.
Qed.

(** C8. The pairing of a response with the command that was sent does not
    hold on the network variant. When [sendall] raises [socket.error], the
    handler of lines 230 to 233 only prints [Send failed]: the attempt goes
    on to [recv], and the read returns the line that arrives on a
    connection on which its command never went out, after this one
    attempt. *)
Theorem response_without_command value readPrefix w raw :
  on_socket (network w (connections w)) = Ret tt ->
  on_connect (network w (connections w)) = Ret tt ->
  on_sendall (network w (connections w)) = Raise SocketError ->
  on_recv (network w (connections w)) = Ret raw ->
  readValue value readPrefix w =
  (Ret (Py.rstrip raw),
   after_attempts w 1
     [Sleep 100;
      SockCreate (connections w) true; SockConnect (connections w) true;
      SockSendall (connections w) (readPrefix ++ value ++ String CR (String LF "")) false;
      Print ["Send failed"];
      SockRecv (connections w) (Ret raw); SockClose (connections w)]).
Proof.
  intros H1 H2 H3 H4.
  unfold readValue, bind at 1, sleep, with_locals.
  unfold bind at 1. cbn [seq]. rewrite retry_loop_step.
  rewrite (attempt_unsent _ _ _ _ raw) by assumption.
  unfold bind at 1, get_locals. cbn.
  unfold ret, after_attempts, emit. cbn. rewrite <- !app_assoc. reflexivity.
Qed.

Lemma response_without_command_witness :
  let w := new_world (fun _ => Ret "")
             (fun _ => unsent "STAT:DEV:DB7.T1:TEMP:SIG:TEMP:4.2000K") in
  readValue "DEV:DB7.T1:TEMP:SIG:TEMP" "READ:" w =
  (Ret "STAT:DEV:DB7.T1:TEMP:SIG:TEMP:4.2000K",
   after_attempts w 1
     [Sleep 100; SockCreate 0 true; SockConnect 0 true;
      SockSendall 0 ("READ:" ++ "DEV:DB7.T1:TEMP:SIG:TEMP" ++ String CR (String LF "")) false;
      Print ["Send failed"];
      SockRecv 0 (Ret "STAT:DEV:DB7.T1:TEMP:SIG:TEMP:4.2000K"); SockClose 0]) /\
  fst (getSignal temperatureControllerEthernet.new "db7" "TEMP" w) = Ret (Py.literal "4.2").
Proof.
  cbv zeta. split; [|reflexivity].
  apply (response_without_command "DEV:DB7.T1:TEMP:SIG:TEMP" "READ:"
           (new_world (fun _ => Ret "")
              (fun _ => unsent "STAT:DEV:DB7.T1:TEMP:SIG:TEMP:4.2000K"))
           "STAT:DEV:DB7.T1:TEMP:SIG:TEMP:4.2000K"); reflexivity.
Defined.

(** * Further properties of the driver *)

(** ** Numerals with something around them *)

Lemma string_app_cons a s t : (String a s ++ t)%string = String a (s ++ t).
Proof. reflexivity. Qed.

Lemma string_app_assoc s t u : ((s ++ t) ++ u)%string = (s ++ (t ++ u))%string.
Proof.
  induction s as [|a s IH]; [reflexivity|].
  rewrite !string_app_cons. now rewrite IH.
Qed.

Lemma lstrip_blank ws s : all_space ws = true -> Py.lstrip (ws ++ s) = Py.lstrip s.
Proof.
  induction ws as [|c ws IH]; [reflexivity|].
  cbn [all_space]. intros H. apply andb_prop in H. destruct H as [Hc Hws].
  rewrite string_app_cons. cbn [Py.lstrip]. rewrite Hc. now apply IH.
Qed.

Lemma lstrip_all_space ws : all_space ws = true -> Py.lstrip ws = "".
Proof.
  intros H. rewrite <- (append_empty ws). rewrite lstrip_blank by assumption. reflexivity.
Qed.

Lemma digit_string_app ds1 ds2 :
  digit_string (ds1 ++ ds2) = (digit_string ds1 ++ digit_string ds2)%string.
Proof.
  induction ds1 as [|d ds1 IH]; [reflexivity|].
  cbn [digit_string app]. rewrite string_app_cons. now rewrite IH.
Qed.

(** The unsigned part of a numeral followed by [rest]. *)
Lemma numeral_rest neg ip fp rest :
  (numeral neg ip fp ++ rest)%string =
  ((if neg then "-" else "") ++
   (digit_string ip ++ String "." (digit_string fp ++ rest)))%string.
Proof.
  unfold numeral. rewrite !string_app_assoc. rewrite string_app_cons. reflexivity.
Qed.

(** What [float] reads at the head of a numeral followed by [rest], when
    [rest] starts neither with a digit nor with an exponent. *)
Lemma parse_numeral_rest neg ip fp rest :
  Forall (fun d => (d < 10)%nat) ip ->
  Forall (fun d => (d < 10)%nat) fp ->
  match rest with String c _ => Py.isdigit_char c = false | EmptyString => True end ->
  Py.parse_exponent rest = (0%Z, rest) ->
  Py.lstrip (numeral neg ip fp ++ rest) = (numeral neg ip fp ++ rest)%string /\
  Py.parse_number (numeral neg ip fp ++ rest) =
  match (length ip + length fp)%nat with
  | O => None
  | _ => Some (mantissa neg ip fp, rest)
  end.
Proof.
  intros Hip Hfp Hrest Hexp.
  destruct (unsigned_head ip fp Hip) as (c & r & Hu & Hsp & Hlow & Hm & Hp & Hi & Hn).
  assert ((digit_string ip ++ String "." (digit_string fp ++ rest))%string
          = String c (r ++ rest)) as Hu'.
  { change (String c (r ++ rest)) with (String c r ++ rest)%string.
    rewrite <- Hu, string_app_assoc. reflexivity. }
  assert (Py.sign (numeral neg ip fp ++ rest)
          = (neg, (digit_string ip ++ String "." (digit_string fp ++ rest))%string)) as Hsign.
  { rewrite numeral_rest. destruct neg; [reflexivity|].
    change ("" ++ ?x)%string with x. rewrite Hu'. now apply sign_unsigned. }
  split.
  - rewrite numeral_rest. destruct neg; [reflexivity|].
    change ("" ++ ?x)%string with x. rewrite Hu'. cbn. now rewrite Hsp.
  - assert (Py.parse_inf_or_nan (numeral neg ip fp ++ rest) = None) as Hinf.
    { unfold Py.parse_inf_or_nan. rewrite Hsign, Hu'.
      rewrite !match_nocase_head by (rewrite Hlow; assumption). reflexivity. }
    unfold Py.parse_number. rewrite Hinf.
    unfold Py.parse_decimal. rewrite Hsign.
    rewrite (digits_digit_string ip Hip) by reflexivity.
    rewrite (digits_digit_string fp Hfp rest (digits_value ip 0) 0 Hrest).
    cbn [Nat.add].
    destruct (length ip + length fp)%nat eqn:E; [reflexivity|].
    rewrite Hexp. reflexivity.
Qed.

Lemma parse_exponent_blank ws :
  all_space ws = true -> Py.parse_exponent ws = (0%Z, ws).
Proof.
  destruct ws as [|c r]; [reflexivity|].
  cbn [all_space]. intros H. apply andb_prop in H. destruct H as [Hc _].
  unfold Py.parse_exponent.
  destruct (Ascii.eqb (Py.tolower c) "e") eqn:E; [|reflexivity].
  apply Ascii.eqb_eq in E. exfalso.
  destruct c as [[] [] [] [] [] [] [] []]; cbn in Hc, E; discriminate.
Qed.

Lemma blank_head_not_digit ws :
  all_space ws = true ->
  match ws with String c _ => Py.isdigit_char c = false | EmptyString => True end.
Proof.
  destruct ws as [|c r]; [trivial|].
  cbn [all_space]. intros H. apply andb_prop in H. destruct H as [Hc _].
  destruct c as [[] [] [] [] [] [] [] []]; cbn in Hc |- *; try reflexivity; discriminate.
Qed.

(** [float] skips white space before and after a numeral. *)
Lemma float_of_padded_numeral ws1 ws2 neg ip fp :
  all_space ws1 = true -> all_space ws2 = true ->
  Forall (fun d => (d < 10)%nat) ip ->
  Forall (fun d => (d < 10)%nat) fp ->
  (0 < length ip + length fp)%nat ->
  Py.float_of_string (ws1 ++ numeral neg ip fp ++ ws2) = Ret (mantissa neg ip fp).
Proof.
  intros H1 H2 Hip Hfp Hlen.
  destruct (parse_numeral_rest neg ip fp ws2 Hip Hfp
              (blank_head_not_digit ws2 H2) (parse_exponent_blank ws2 H2)) as [Hl Hp].
  unfold Py.float_of_string. rewrite lstrip_blank by assumption.
  rewrite Hl, Hp.
  destruct (length ip + length fp)%nat eqn:E; [lia|].
  now rewrite lstrip_all_space.
Qed.

(** [float] rejects a numeral followed by a byte that is neither a digit
    nor white space. *)
Lemma float_of_numeral_junk neg ip fp c :
  Forall (fun d => (d < 10)%nat) ip ->
  Forall (fun d => (d < 10)%nat) fp ->
  Py.isdigit_char c = false -> Py.isspace_char c = false ->
  Py.float_of_string (numeral neg ip fp ++ String c "") = Raise ValueError.
Proof.
  intros Hip Hfp Hd Hs.
  assert (Py.parse_exponent (String c "") = (0%Z, String c "")) as Hexp.
  { unfold Py.parse_exponent. destruct (Ascii.eqb (Py.tolower c) "e"); reflexivity. }
  destruct (parse_numeral_rest neg ip fp (String c "") Hip Hfp Hd Hexp) as [Hl Hp].
  unfold Py.float_of_string. rewrite Hl, Hp.
  destruct (length ip + length fp)%nat; [reflexivity|].
  cbn [Py.lstrip]. now rewrite Hs.
Qed.

Lemma payload_snoc body c u :
  ((body ++ String c "") ++ String u "")%string = payload body c u.
Proof. unfold payload. now rewrite string_app_assoc. Qed.

Lemma numeral_snoc neg ip fp d :
  numeral neg ip (fp ++ [d]) = (numeral neg ip fp ++ String (Py.digit_char d) "")%string.
Proof.
  rewrite numeral_rest. unfold numeral. now rewrite digit_string_app.
Qed.

(** X1. An answer without SI prefix loses its last digit. When the answer is a
    numeral followed by one unit byte, its last byte but one is the last
    digit of the numeral, so [decode] takes the branch without prefix and
    returns the float of the numeral without that digit: [4.25K] gives
    4.2. *)
Theorem decode_drops_last_digit neg ip fp d u w :
  Forall (fun d => (d < 10)%nat) ip ->
  Forall (fun d => (d < 10)%nat) fp ->
  (d < 10)%nat ->
  (0 < length ip + length fp)%nat ->
  decode (numeral neg ip (fp ++ [d]) ++ String u "") w = (Ret (mantissa neg ip fp), w).
Proof.
  intros Hip Hfp Hd Hlen.
  rewrite numeral_snoc, payload_snoc, decode_payload.
  destruct (digit_char_facts d Hd) as (-> & _).
  now rewrite float_of_numeral.
Qed.

Lemma decode_drops_last_digit_witness :
  decode "4.25K" dead_world = (Ret (Py.literal "4.2"), dead_world).
Proof.
  apply (decode_drops_last_digit false [4] [2] 5 "K" dead_world);
    [repeat constructor|repeat constructor|lia|cbn; lia].
Defined.

(** X2. A byte that is neither a digit nor white space between the numeral
    and the last two bytes of the answer makes [decode] print the answer
    and raise [ValueError], whatever the last byte but one is, as long as
    it is no digit. So a micro sign sent as the two bytes C2 B5 of UTF-8 is
    rejected, although its second byte is a key of [siPrefixes]. *)
Theorem decode_rejects_junk neg ip fp c k u w :
  Forall (fun d => (d < 10)%nat) ip ->
  Forall (fun d => (d < 10)%nat) fp ->
  Py.isdigit_char c = false -> Py.isspace_char c = false ->
  Py.isdigit_char k = false ->
  decode (payload (numeral neg ip fp ++ String c "") k u) w =
  (Raise ValueError,
   emit (Print ["Ans: "; payload (numeral neg ip fp ++ String c "") k u]) w).
Proof.
  intros Hip Hfp Hd Hs Hk.
  rewrite decode_payload, Hk, float_of_numeral_junk by assumption. reflexivity.
Qed.

(** X3. White space before and after the numeral is ignored: for each of the
    six prefix characters, an answer such as [7.000000 mV] decodes to the
    same product as [7.000000mV]. *)
Theorem decode_ignores_blanks p e u w ws1 ws2 neg ip fp :
  prefixExponent p = Some e ->
  all_space ws1 = true -> all_space ws2 = true ->
  Forall (fun d => (d < 10)%nat) ip ->
  Forall (fun d => (d < 10)%nat) fp ->
  (0 < length ip + length fp)%nat ->
  decode (payload (ws1 ++ numeral neg ip fp ++ ws2) p u) w =
  (Ret (Py.fmul (mantissa neg ip fp) (prefixFactor e)), w).
Proof.
  intros Hp H1 H2 Hip Hfp Hlen.
  rewrite decode_payload, (prefix_not_digit p e Hp), (siPrefixes_known p e Hp).
  now rewrite float_of_padded_numeral.
Qed.

Lemma decode_rejects_junk_witness :
  decode (payload (numeral false sample_ip sample_fp ++ String "194" "") "181" "V")
    dead_world =
  (Raise ValueError,
   emit (Print ["Ans: ";
                payload (numeral false sample_ip sample_fp ++ String "194" "") "181" "V"])
     dead_world).
Proof.
  apply (decode_rejects_junk false sample_ip sample_fp "194" "181" "V" dead_world);
    solve [repeat constructor | reflexivity].
Defined.

Lemma decode_ignores_blanks_witness :
  decode " 7.000000 mV" dead_world = (Ret (Py.literal "0.007"), dead_world).
Proof.
  apply (decode_ignores_blanks "m" (-3)%Z "V" dead_world " " " " false sample_ip sample_fp);
    solve [repeat constructor | reflexivity | cbn; lia].
Defined.

(** ** Stripping and splitting *)


(** [rstrip] removes a suffix of white space and nothing else. *)
Lemma rstrip_decompose s :
  exists ws, s = (Py.rstrip s ++ ws)%string /\ all_space ws = true.
Proof.
  induction s as [|c r (ws & E & Hws)].
  - exists "". split; reflexivity.
  - cbn [Py.rstrip]. destruct (Py.rstrip r) as [|a t] eqn:Hr.
    + change ("" ++ ws)%string with ws in E. subst r.
      destruct (Py.isspace_char c) eqn:Hc.
      * exists (String c ws). split; [reflexivity|]. cbn [all_space]. now rewrite Hc.
      * exists ws. split; [reflexivity|assumption].
    + exists ws. split; [|assumption]. rewrite E at 1. reflexivity.
Qed.

(** What [rstrip] returns does not end in white space. *)
Lemma rstrip_clean s : ends_clean (Py.rstrip s) = true.
Proof.
  induction s as [|c r IH]; [reflexivity|].
  cbn [Py.rstrip]. destruct (Py.rstrip r) as [|a t] eqn:Hr.
  - destruct (Py.isspace_char c) eqn:Hc; [reflexivity|].
    unfold ends_clean. cbn. now rewrite Hc.
  - exact IH.
Qed.


(** Splitting around a separator. *)
Lemma split_app sep a b :
  Py.split sep (a ++ String sep b) = Py.split sep a ++ Py.split sep b.
Proof.
  induction a as [|c a IH].
  - change ("" ++ String sep b)%string with (String sep b).
    cbn [Py.split]. now rewrite Ascii.eqb_refl.
  - rewrite string_app_cons. cbn [Py.split]. rewrite IH.
    pose proof (split_not_nil sep a) as Hne.
    destruct (Ascii.eqb c sep); [reflexivity|].
    destruct (Py.split sep a) as [|f fs]; [contradiction|reflexivity].
Qed.

Lemma split_clean sep s : has_char sep s = false -> Py.split sep s = [s].
Proof.
  induction s as [|c s IH]; [reflexivity|].
  cbn [has_char Py.split]. intros H. apply orb_false_elim in H. destruct H as [Hc Hs].
  rewrite Hc, IH by assumption. reflexivity.
Qed.

(** The last field of a line is what follows its last colon. *)
Lemma parseResponse_field front field :
  has_char ":" field = false ->
  parseResponse (front ++ String ":" field) = Ret field.
Proof.
  intros H. unfold parseResponse.
  rewrite split_app, (split_clean _ _ H). apply last_item_app.
Qed.

Lemma has_char_app c s t : has_char c (s ++ t) = has_char c s || has_char c t.
Proof.
  induction s as [|a s IH]; [reflexivity|].
  rewrite string_app_cons. cbn [has_char]. rewrite IH. apply orb_assoc.
Qed.

Lemma digit_string_no_colon ds :
  Forall (fun d => (d < 10)%nat) ds -> has_char ":" (digit_string ds) = false.
Proof.
  induction 1 as [|d ds Hd _ IH]; [reflexivity|].
  cbn [digit_string has_char]. rewrite IH, orb_false_r.
  do 10 (destruct d as [|d]; [reflexivity|]). lia.
Qed.

Lemma numeral_no_colon neg ip fp :
  Forall (fun d => (d < 10)%nat) ip ->
  Forall (fun d => (d < 10)%nat) fp ->
  has_char ":" (numeral neg ip fp) = false.
Proof.
  intros Hip Hfp. unfold numeral. rewrite !has_char_app. cbn [has_char].
  rewrite (digit_string_no_colon ip Hip), (digit_string_no_colon fp Hfp).
  destruct neg; reflexivity.
Qed.

Lemma prefix_not_colon p e : prefixExponent p = Some e -> Ascii.eqb p ":" = false.
Proof.
  intros H. by_prefix H ltac:(reflexivity). discriminate.
Qed.

(** The exceptions of [decode]. *)
Lemma decode_raises ans w e :
  fst (decode ans w) = Raise e -> e = IndexError \/ e = ValueError.
Proof.
  destruct (Nat.lt_ge_cases (String.length ans) 2) as [Hs|Hl].
  - rewrite decode_short by assumption. cbn. intros H. left. congruence.
  - destruct (payload_of_long ans Hl) as (body & c & u & ->).
    rewrite decode_payload. intros H. right.
    destruct (Py.isdigit_char c).
    + cbn in H. destruct (float_of_string_cases body) as [[x Hx]|Hx];
        rewrite Hx in H; congruence.
    + destruct (float_of_string_cases body) as [[x Hx]|Hx]; rewrite Hx in H;
        [destruct (siPrefixes !! String c "")|]; cbn in H; congruence.
Qed.

(** [decode] changes nothing but the console. *)
Lemma decode_world ans w :
  exists evs, snd (decode ans w) = after_port_calls w 0 evs /\ commands evs = [] /\
              wire evs = [].
Proof.
  assert (forall w : world, w = after_port_calls w 0 []) as Hsame.
  { intros [ser sc net cn lg]. unfold after_port_calls. cbn. now rewrite app_nil_r. }
  destruct (Nat.lt_ge_cases (String.length ans) 2) as [Hs|Hl].
  - rewrite decode_short by assumption. exists []. repeat split. apply Hsame.
  - destruct (payload_of_long ans Hl) as (body & c & u & ->).
    rewrite decode_payload.
    destruct (Py.isdigit_char c); [exists []; repeat split; apply Hsame|].
    destruct (Py.float_of_string body);
      [destruct (siPrefixes !! String c "")|];
      first [ exists []; repeat split; apply Hsame
            | eexists [_]; repeat split ].
Qed.

(** One read on the serial variant, by what the port answers to the write,
    to [readline] and to the flush. *)
Lemma serial_readValue_run value readPrefix w :
  let c := serial_calls w in
  let bytes := ((readPrefix ++ value) ++ String LF (String CR ""))%string in
  temperatureController.readValue value readPrefix w =
  match serial w c with
  | Raise e => (Raise e, after_port_calls w 1 [SerWrite bytes false])
  | Ret _ =>
      match serial w (S c) with
      | Raise e =>
          (Raise e, after_port_calls w 2
                      [SerWrite bytes true; Sleep 3000; SerReadline (Raise e)])
      | Ret line =>
          match serial w (S (S c)) with
          | Raise e =>
              (Raise e, after_port_calls w 3
                          [SerWrite bytes true; Sleep 3000; SerReadline (Ret line);
                           SerFlush false])
          | Ret _ =>
              (Ret (Py.rstrip line),
               after_port_calls w 3
                 [SerWrite bytes true; Sleep 3000; SerReadline (Ret line);
                  SerFlush true])
          end
      end
  end.
Proof.
  destruct w as [ser sc net cn lg].
  unfold temperatureController.readValue, temperatureController.writeValue,
    ser_write, ser_readline, ser_flush, sleep, bind, ret, emit, tick_serial, unit_of,
    after_port_calls.
  cbn.
  destruct (ser sc) as [x0|e0]; cbn; [|reflexivity].
  destruct (ser (S sc)) as [x1|e1]; cbn; [|now rewrite <- !app_assoc].
  destruct (ser (S (S sc))) as [x2|e2]; cbn; now rewrite <- !app_assoc.
Qed.

(** ** Reads from end to end *)





(** X4. The serial [readValue] does not retry and hides no failure of the
    port. It writes its command once, terminated by line feed and carriage
    return; the first of its three port calls (write, readline, flush) that
    raises an exception decides the exception of [readValue], and no call
    is made after it; when all three work, the result is the line read,
    stripped. *)
Theorem serial_read_no_retry value readPrefix w :
  (exists evs,
      log (snd (temperatureController.readValue value readPrefix w)) = log w ++ evs /\
      commands evs = [((readPrefix ++ value) ++ String LF (String CR ""))%string] /\
      count_events is_ser_write evs = 1%nat) /\
  (forall k e,
      (k < 3)%nat ->
      serial w (k + serial_calls w) = Raise e ->
      (forall j, (j < k)%nat -> returns (serial w (j + serial_calls w)) = true) ->
      fst (temperatureController.readValue value readPrefix w) = Raise e /\
      serial_calls (snd (temperatureController.readValue value readPrefix w))
      = (S k + serial_calls w)%nat) /\
  ((forall j, (j < 3)%nat -> returns (serial w (j + serial_calls w)) = true) ->
   exists line,
     serial w (1 + serial_calls w) = Ret line /\
     fst (temperatureController.readValue value readPrefix w) = Ret (Py.rstrip line) /\
     serial_calls (snd (temperatureController.readValue value readPrefix w))
     = (3 + serial_calls w)%nat).
Proof.
  rewrite serial_readValue_run. cbv zeta.
  split; [|split].
  - destruct (serial w (serial_calls w)) as [x0|e0];
      [destruct (serial w (S (serial_calls w))) as [x1|e1];
       [destruct (serial w (S (S (serial_calls w)))) as [x2|e2]|]|];
      eexists; (split; [reflexivity|split; reflexivity]).
  - intros k e Hk He Hbefore.
    assert (forall j, (j < k)%nat -> exists x, serial w (j + serial_calls w) = Ret x) as Hb.
    { intros j Hj. specialize (Hbefore j Hj).
      destruct (serial w (j + serial_calls w)) as [x|]; [now exists x|discriminate]. }
    destruct k as [|[|[|k]]]; [| | |lia]; cbn [Nat.add] in *.
    + rewrite He. split; reflexivity.
    + destruct (Hb 0%nat) as (x0 & H0); [lia|]. cbn [Nat.add] in H0.
      rewrite H0, He. split; reflexivity.
    + destruct (Hb 0%nat) as (x0 & H0); [lia|].
      destruct (Hb 1%nat) as (x1 & H1); [lia|]. cbn [Nat.add] in H0, H1.
      rewrite H0, H1, He. split; reflexivity.
  - intros Hall.
    assert (forall j, (j < 3)%nat -> exists x, serial w (j + serial_calls w) = Ret x) as Hb.
    { intros j Hj. specialize (Hall j Hj).
      destruct (serial w (j + serial_calls w)) as [x|]; [now exists x|discriminate]. }
    destruct (Hb 0%nat) as (x0 & H0); [lia|].
    destruct (Hb 1%nat) as (x1 & H1); [lia|].
    destruct (Hb 2%nat) as (x2 & H2); [lia|]. cbn [Nat.add] in *.
    rewrite H0, H1, H2. exists x1. repeat split.
Qed.

Lemma serial_read_no_retry_witness :
  fst (temperatureController.readValue "SYS:CAT" "READ:"
         (new_world (fun n => match n with 1 => Raise SerialException | _ => Ret "" end)
            (fun _ => refused))) = Raise SerialException /\
  serial_calls (snd (temperatureController.readValue "SYS:CAT" "READ:"
         (new_world (fun n => match n with 1 => Raise SerialException | _ => Ret "" end)
            (fun _ => refused)))) = 2%nat.
Proof.
  apply (proj1 (proj2 (serial_read_no_retry "SYS:CAT" "READ:"
           (new_world (fun n => match n with 1 => Raise SerialException | _ => Ret "" end)
              (fun _ => refused)))) 1%nat SerialException).
  - lia.
  - reflexivity.
  - intros j Hj. destruct j as [|j]; [reflexivity|lia].
Defined.


(** X5. What [readValue] returns, on either variant, is the line received
    without the white space at its end: the line received is the result
    followed by white space only, and the result does not end in white
    space. *)
Theorem readValue_result_stripped :
  (forall value readPrefix w d,
      fst (temperatureController.readValue value readPrefix w) = Ret d ->
      ends_clean d = true /\
      exists ws, serial w (S (serial_calls w)) = Ret (d ++ ws)%string /\
                 all_space ws = true) /\
  (forall value readPrefix w d,
      fst (temperatureControllerEthernet.readValue value readPrefix w) = Ret d ->
      ends_clean d = true /\
      exists ws j, (j < 5)%nat /\
                   on_recv (network w (connections w + j)%nat) = Ret (d ++ ws)%string /\
                   all_space ws = true).
Proof.
  split.
  - intros value readPrefix w d. rewrite serial_readValue_run. cbv zeta.
    destruct (serial w (serial_calls w)) as [x0|e0]; [|discriminate].
    destruct (serial w (S (serial_calls w))) as [line|e1]; [|discriminate].
    destruct (serial w (S (S (serial_calls w)))) as [x2|e2]; [|discriminate].
    cbn. intros H. inversion H; subst d. split; [apply rstrip_clean|].
    destruct (rstrip_decompose line) as (ws & E & Hws).
    exists ws. split; [now rewrite <- E|assumption].
  - intros value readPrefix w d H.
    destruct (readValue_outcome value readPrefix w) as (w' & evs & Ho).
    destruct (first_ok (network w) (connections w) 0 5) as [j|].
    + destruct Ho as (raw & id & sent & pre & Hr & _ & Hj & Hrecv & _).
      rewrite Hr in H. cbn in H. inversion H; subst d.
      split; [apply rstrip_clean|].
      destruct (rstrip_decompose raw) as (ws & E & Hws).
      exists ws, j. split; [assumption|]. split; [now rewrite <- E|assumption].
    + destruct Ho as (Hr & _). rewrite Hr in H. discriminate.
Qed.

Lemma readValue_result_stripped_witness :
  ends_clean "STAT:SYS:CAT:DEV:MB1.T1:TEMP" = true /\
  exists ws j, (j < 5)%nat /\
    on_recv (network (answering_world ("STAT:SYS:CAT:DEV:MB1.T1:TEMP" ++ String CR (String LF "")))
               (0 + j)%nat)
    = Ret ("STAT:SYS:CAT:DEV:MB1.T1:TEMP" ++ ws)%string /\
    all_space ws = true.
Proof.
  apply (proj2 readValue_result_stripped "SYS:CAT" "READ:"
           (answering_world ("STAT:SYS:CAT:DEV:MB1.T1:TEMP" ++ String CR (String LF "")))).
  reflexivity.
Defined.

(** X6. From the line to the value. When [readValue] returns a line whose
    text after the last colon is a numeral, one of the six prefix
    characters and a unit byte, [getSignal] returns the product of the
    float of the numeral and the float of the prefix factor, and leaves the
    world as [readValue] left it. *)
Theorem getSignal_end_to_end self device address signal w w' front neg ip fp p e u :
  self_devices self !! device = Some address ->
  self_readValue self (address ++ ":SIG:" ++ signal)%string "READ:" w =
    (Ret (front ++ String ":" (payload (numeral neg ip fp) p u))%string, w') ->
  prefixExponent p = Some e ->
  u <> ":"%char ->
  Forall (fun d => (d < 10)%nat) ip ->
  Forall (fun d => (d < 10)%nat) fp ->
  (0 < length ip + length fp)%nat ->
  getSignal self device signal w =
  (Ret (Py.fmul (mantissa neg ip fp) (prefixFactor e)), w').
Proof.
  intros Hd Hr Hp Hu Hip Hfp Hlen.
  destruct (getSignal_after_read self device signal address w _ w' Hd Hr)
    as (ans & Hans & ->).
  rewrite parseResponse_field in Hans.
  - inversion Hans; subst ans.
    rewrite decode_payload, (prefix_not_digit p e Hp), (siPrefixes_known p e Hp).
    now rewrite float_of_numeral.
  - unfold payload. rewrite has_char_app, (numeral_no_colon neg ip fp Hip Hfp).
    cbn [has_char]. rewrite (prefix_not_colon p e Hp).
    apply Ascii.eqb_neq in Hu. now rewrite Hu.
Qed.

Lemma getSignal_end_to_end_witness :
  let w := answering_world
             ("STAT:DEV:DB7.T1:TEMP:SIG:VOLT:7.000000mV" ++ String CR (String LF "")) in
  getSignal temperatureControllerEthernet.new "db7" "VOLT" w =
  (Ret (Py.literal "0.007"),
   snd (temperatureControllerEthernet.readValue "DEV:DB7.T1:TEMP:SIG:VOLT" "READ:" w)).
Proof.
  cbv zeta.
  apply (getSignal_end_to_end temperatureControllerEthernet.new "db7" "DEV:DB7.T1:TEMP"
           "VOLT" _ _ "STAT:DEV:DB7.T1:TEMP:SIG:VOLT" false sample_ip sample_fp
           "m" (-3)%Z "V").
  - vm_compute. reflexivity.
  - vm_compute. reflexivity.
  - reflexivity.
  - discriminate.
  - repeat constructor.
  - repeat constructor.
  - cbn. lia.
Defined.

(** X7. When [readValue] returns a line of fewer than two bytes, an empty
    line for one, [getSignal] raises [IndexError]; nothing is printed and
    nothing is read again. *)
Theorem getSignal_short_answer self device address signal w line w' :
  self_devices self !! device = Some address ->
  self_readValue self (address ++ ":SIG:" ++ signal)%string "READ:" w = (Ret line, w') ->
  (String.length line < 2)%nat ->
  getSignal self device signal w = (Raise IndexError, w').
Proof.
  intros Hd Hr Hlen.
  destruct (getSignal_after_read self device signal address w _ w' Hd Hr)
    as (ans & Hans & ->).
  apply decode_short.
  destruct line as [|c [|c' r]]; cbn in Hlen; [| |lia].
  - inversion Hans. cbn. lia.
  - unfold parseResponse in Hans. cbn in Hans.
    destruct (Ascii.eqb c ":"); inversion Hans; cbn; lia.
Qed.

Lemma getSignal_short_answer_witness :
  getSignal temperatureController.new "db7" "TEMP" (steady_line "") =
  (Raise IndexError,
   snd (temperatureController.readValue "DEV:DB7.T1:TEMP:SIG:TEMP" "READ:" (steady_line ""))).
Proof.
  apply (getSignal_short_answer temperatureController.new "db7" "DEV:DB7.T1:TEMP" "TEMP"
           (steady_line "") "").
  - vm_compute. reflexivity.
  - vm_compute. reflexivity.
  - cbn. lia.
Defined.

Lemma network_readValue_contained value readPrefix w :
  (exists d, fst (temperatureControllerEthernet.readValue value readPrefix w) = Ret d) \/
  fst (temperatureControllerEthernet.readValue value readPrefix w) = Raise SystemExit.
Proof.
  destruct (readValue_outcome value readPrefix w) as (w' & evs & Ho).
  destruct (first_ok (network w) (connections w) 0 5) as [j|].
  - destruct Ho as (raw & id & sent & pre & Hr & _). rewrite Hr. left. now eexists.
  - destruct Ho as (Hr & _). rewrite Hr. now right.
Qed.

(** X8. On the network variant no exception of a socket call reaches the
    caller of a read: [readValue], [getVersion] and [getDevices] return or
    raise [SystemExit], whatever the socket calls raise, a keyboard
    interrupt included; [getSignal] returns or raises [KeyError] for the
    device, [SystemExit], [IndexError] or [ValueError]. *)
Theorem network_errors_contained :
  (forall value readPrefix w,
      (exists d, fst (temperatureControllerEthernet.readValue value readPrefix w) = Ret d) \/
      fst (temperatureControllerEthernet.readValue value readPrefix w) = Raise SystemExit) /\
  (forall w,
      (exists d, fst (getVersion temperatureControllerEthernet.new w) = Ret d) \/
      fst (getVersion temperatureControllerEthernet.new w) = Raise SystemExit) /\
  (forall w,
      fst (temperatureControllerEthernet.getDevices w) = Ret tt \/
      fst (temperatureControllerEthernet.getDevices w) = Raise SystemExit) /\
  (forall device signal w,
      (exists x, fst (getSignal temperatureControllerEthernet.new device signal w) = Ret x) \/
      In (fst (getSignal temperatureControllerEthernet.new device signal w))
         [Raise (KeyError device); Raise SystemExit; Raise IndexError; Raise ValueError]).
Proof.
  split; [exact network_readValue_contained|]. split; [|split].
  - intros w. unfold getVersion, bind. cbn [self_readValue temperatureControllerEthernet.new].
    destruct (network_readValue_contained "*IDN?" "" w) as [[d H]|H];
      destruct (temperatureControllerEthernet.readValue "*IDN?" "" w) as [[x|e] w'];
      cbn in *; try discriminate; [left; now exists x|right; exact H].
  - intros w. unfold temperatureControllerEthernet.getDevices, bind, print.
    destruct (network_readValue_contained "SYS:CAT" "READ:" w) as [[d H]|H];
      destruct (temperatureControllerEthernet.readValue "SYS:CAT" "READ:" w) as [[x|e] w'];
      cbn in *; try discriminate; [now left|right; congruence].
  - intros device signal w.
    destruct (self_devices temperatureControllerEthernet.new !! device) as [address|] eqn:Hd.
    + destruct (self_readValue temperatureControllerEthernet.new
                  (address ++ ":SIG:" ++ signal)%string "READ:" w) as [[raw|e] w'] eqn:Hr.
      * destruct (getSignal_after_read _ device signal address w raw w' Hd Hr)
          as (ans & _ & ->).
        destruct (fst (decode ans w')) as [x|e] eqn:He; [left; now exists x|].
        right. destruct (decode_raises ans w' e He) as [-> | ->]; cbn; tauto.
      * rewrite (getSignal_read_raises _ device signal address w e w' Hd Hr).
        destruct (network_readValue_contained (address ++ ":SIG:" ++ signal)%string "READ:" w)
          as [[d H]|H]; cbn [self_readValue temperatureControllerEthernet.new] in Hr;
          rewrite Hr in H; cbn in H; [discriminate|].
        right. inversion H. cbn. tauto.
    + right. unfold getSignal, bind, lift, dict_getitem. rewrite Hd. cbn. tauto.
Qed.

(** ** The reads of [getSensorInformation] *)



Section SerialReads.

Variable self : controller.
Hypothesis serial_self : self_readValue self = temperatureController.readValue.


End SerialReads.



(** ** The settle delay *)

Lemma conducts_pure {A} (r : result A) : conducts (lift r).
Proof. intros w _. exists []. split; [cbn; now rewrite app_nil_r|reflexivity]. Qed.

Lemma conducts_print items : conducts (print items).
Proof. intros w _. exists [Print items]. split; reflexivity. Qed.

Lemma conducts_bind {A B} (m : M world A) (k : A -> M world B) :
  conducts m -> (forall a, conducts (k a)) -> conducts (bind m k).
Proof.
  intros Hm Hk w. unfold bind. specialize (Hm w).
  destruct (m w) as [[a|e] w1]; cbn [fst snd] in *; [|discriminate].
  intros Hret. destruct (Hm eq_refl) as (e1 & L1 & S1).
  destruct (Hk a w1 Hret) as (e2 & L2 & S2).
  exists (e1 ++ e2). split; [rewrite L2, L1; now rewrite app_assoc|].
  now rewrite fold_left_app, S1.
Qed.

Lemma conducts_void {A} (m : M world A) : conducts m -> conducts (void m).
Proof.
  intros H. apply conducts_bind; [exact H|intros; exact (conducts_pure (Ret tt))].
Qed.

(** A serial read that returns: the command, the wait, the line, the flush. *)
Lemma conducts_serial_readValue value readPrefix :
  conducts (temperatureController.readValue value readPrefix).
Proof.
  intros w. rewrite serial_readValue_run. cbv zeta.
  destruct (serial w (serial_calls w));
    [destruct (serial w (S (serial_calls w)));
     [destruct (serial w (S (S (serial_calls w))))|]|];
    cbn [fst returns]; intros Hret; try discriminate.
  eexists. split; reflexivity.
Qed.

(** A serial [SET] that returns: the command, the wait, the line. *)
Lemma conducts_serial_setValue value :
  conducts (temperatureController.setValue value).
Proof.
  intros [ser sc net cn lg].
  unfold temperatureController.setValue, temperatureController.writeValue,
    ser_write, ser_readline, sleep, bind, ret, emit, tick_serial, unit_of.
  cbn.
  destruct (ser sc) as [x0|e0]; cbn; [|discriminate].
  destruct (ser (S sc)) as [x1|e1]; cbn; [|discriminate].
  intros _. eexists. split; [rewrite <- !app_assoc; reflexivity|reflexivity].
Qed.

(** A [decode] that returns has not touched the world. *)
Lemma conducts_decode ans : conducts (decode ans).
Proof.
  intros w.
  destruct (Nat.lt_ge_cases (String.length ans) 2) as [Hs|Hl].
  - rewrite decode_short by assumption. discriminate.
  - destruct (payload_of_long ans Hl) as (body & c & u & ->).
    rewrite decode_payload.
    destruct (Py.isdigit_char c); [intros _; exists []; now rewrite app_nil_r|].
    destruct (Py.float_of_string body); [destruct (siPrefixes !! String c "")|];
      cbn [fst snd returns]; intros Hret; try discriminate.
    exists []. now rewrite app_nil_r.
Qed.

Section SerialSessions.

Variable self : controller.
Hypothesis serial_self : self_readValue self = temperatureController.readValue.
Hypothesis serial_set : self_setValue self = temperatureController.setValue.

Lemma conducts_getSignal device signal : conducts (getSignal self device signal).
Proof.
  unfold getSignal. apply conducts_bind; [apply conducts_pure|]. intros address.
  apply conducts_bind; [rewrite serial_self; apply conducts_serial_readValue|].
  intros raw. apply conducts_bind; [apply conducts_pure|]. intros ans.
  apply conducts_decode.
Qed.

Lemma conducts_perform c : conducts (perform self c).
Proof.
  destruct c as [v p|v| | |d s|d t]; cbn [perform].
  - apply conducts_void. rewrite serial_self. apply conducts_serial_readValue.
  - rewrite serial_set. apply conducts_serial_setValue.
  - apply conducts_void. unfold getVersion.
    apply conducts_bind; [rewrite serial_self; apply conducts_serial_readValue|].
    intros; exact (conducts_pure (Ret _)).
  - unfold temperatureController.getDevices.
    apply conducts_bind; [rewrite serial_self; apply conducts_serial_readValue|].
    intros; apply conducts_print.
  - apply conducts_void, conducts_getSignal.
  - apply conducts_void. unfold getSensorInformation.
    repeat (apply conducts_bind; [apply conducts_getSignal|intros ?]).
    destruct t; [|exact (conducts_pure (Ret _))].
    apply conducts_bind; [apply conducts_getSignal|intros; exact (conducts_pure (Ret _))].
Qed.

Lemma settled_session cs :
  forall w,
    settled (log w) = true -> all_return self cs w = true ->
    settled (log (session self cs w)) = true.
Proof.
  induction cs as [|c cs IH]; intros w Hw Hall; [exact Hw|].
  cbn [session all_return] in *. apply andb_prop in Hall. destruct Hall as [Hc Hrest].
  apply IH; [|exact Hrest].
  destruct (conducts_perform c w Hc) as (evs & L & S). rewrite L.
  unfold settled in *. rewrite fold_left_app.
  destruct (fold_left settle_step (log w) (Some Idle)) as [[]|]; try discriminate.
  now rewrite S.
Qed.

End SerialSessions.

(** X10. On the serial variant, over any sequence of calls that all
    return, the port saw complete exchanges only: every command went out
    and is followed at once by the wait of three seconds and then by one
    line read; no port call failed and nothing is read from the port at
    any other moment. A call that raises, from the port or from an
    interrupt of the wait, is outside this statement. *)
Theorem settle_delay_before_every_read self cs w :
  self_readValue self = temperatureController.readValue ->
  self_setValue self = temperatureController.setValue ->
  settled (log w) = true ->
  all_return self cs w = true ->
  settled (log (session self cs w)) = true.
Proof. intros Hr Hs. now apply settled_session. Qed.

Lemma settle_delay_before_every_read_witness :
  settled (log (session temperatureController.new
                  [CallGetVersion; CallSetValue "DEV:DB7.T1:TEMP:LOOP:TSET:4.2";
                   CallGetDevices; CallGetSensorInformation "db7" false]
                  (steady_line "STAT:DEV:DB7.T1:TEMP:SIG:VOLT:7.000000mV"))) = true.
Proof.
  apply (settle_delay_before_every_read temperatureController.new); reflexivity.
Defined.


(** ** Connection attempts of the inherited methods on the network variant *)

Lemma network_readValue_budget value readPrefix w :
  (connections w < connections (snd (readValue value readPrefix w))
   <= connections w + 5)%nat.
Proof.
  destruct (readValue_outcome value readPrefix w) as (w' & evs & H).
  destruct (first_ok (network w) (connections w) 0 5) as [j|].
  - destruct H as (raw' & id & sent & pre & Hr & (_ & _ & _ & Hc & _) & Hj & _).
    rewrite Hr. cbn. lia.
  - destruct H as (Hr & (_ & _ & _ & Hc & _) & _). rewrite Hr. cbn. lia.
Qed.

Lemma network_getSignal_budget device signal w :
  (connections w
   <= connections (snd (getSignal temperatureControllerEthernet.new device signal w))
   <= connections w + 5)%nat /\
  (returns (fst (getSignal temperatureControllerEthernet.new device signal w)) = true ->
   (connections w
    < connections (snd (getSignal temperatureControllerEthernet.new device signal w)))%nat).
Proof.
  destruct (self_devices temperatureControllerEthernet.new !! device) as [address|] eqn:Hd.
  - pose proof (network_readValue_budget (address ++ ":SIG:" ++ signal)%string "READ:" w) as Hb.
    destruct (self_readValue temperatureControllerEthernet.new
                (address ++ ":SIG:" ++ signal)%string "READ:" w) as [[raw|e] w'] eqn:Hr;
      cbn [self_readValue temperatureControllerEthernet.new] in Hr; rewrite Hr in Hb;
      cbn [snd] in Hb.
    + destruct (getSignal_after_read temperatureControllerEthernet.new device signal
                  address w raw w' Hd Hr) as (ans & _ & ->).
      destruct (decode_world ans w') as (evs & -> & _). cbn. lia.
    + rewrite (getSignal_read_raises temperatureControllerEthernet.new device signal
                 address w e w' Hd Hr). cbn. split; [lia|discriminate].
  - unfold getSignal, bind, lift, dict_getitem. rewrite Hd. cbn. split; [lia|discriminate].
Qed.

(** X11. On the network variant [getSensorInformation] makes at most five
    connection attempts for each signal it asks for, fifteen in all or
    twenty with the temperature, and at least one for each signal when it
    returns. *)
Theorem getSensorInformation_connection_budget device includeTemperature w :
  (connections w
   <= connections (snd (getSensorInformation temperatureControllerEthernet.new device
                          includeTemperature w))
   <= connections w + 5 * length (sensor_signals includeTemperature))%nat /\
  (returns (fst (getSensorInformation temperatureControllerEthernet.new device
                   includeTemperature w)) = true ->
   (connections w + length (sensor_signals includeTemperature)
    <= connections (snd (getSensorInformation temperatureControllerEthernet.new device
                           includeTemperature w)))%nat).
Proof.
  pose proof (network_getSignal_budget device) as HG.
  unfold getSensorInformation, bind.
  destruct (HG "VOLT" w) as (B1 & R1).
  destruct (getSignal temperatureControllerEthernet.new device "VOLT" w) as [[v|x] w1];
    cbn [snd fst returns] in *;
    [|split; [destruct includeTemperature; cbn; lia|discriminate]].
  destruct (HG "CURR" w1) as (B2 & R2).
  destruct (getSignal temperatureControllerEthernet.new device "CURR" w1) as [[c|x] w2];
    cbn [snd fst returns] in *;
    [|split; [destruct includeTemperature; cbn; lia|discriminate]].
  destruct (HG "RES" w2) as (B3 & R3).
  destruct (getSignal temperatureControllerEthernet.new device "RES" w2) as [[r|x] w3];
    cbn [snd fst returns] in *;
    [|split; [destruct includeTemperature; cbn; lia|discriminate]].
  specialize (R1 eq_refl). specialize (R2 eq_refl). specialize (R3 eq_refl).
  destruct includeTemperature.
  - destruct (HG "TEMP" w3) as (B4 & R4).
    destruct (getSignal temperatureControllerEthernet.new device "TEMP" w3) as [[t|x] w4];
      cbn [snd fst returns ret] in *.
    + specialize (R4 eq_refl). cbn. split; [|intros _]; lia.
    + cbn. split; [lia|discriminate].
  - cbn. split; [|intros _]; lia.
Qed.

(** ** What goes to the sockets *)

(** X12. A [SET] on the network variant sends at most one command, the value
    after [SET:] terminated by carriage return and line feed, never calls
    [recv], and closes its socket exactly when it returns. *)
Theorem network_write_never_receives value w :
  exists evs,
    log (snd (setValue value w)) = log w ++ evs /\
    count_events is_recv evs = 0%nat /\
    count_events is_close evs = (if returns (fst (setValue value w)) then 1 else 0)%nat /\
    (commands evs = [] \/
     commands evs = [(("SET:" ++ value) ++ String CR (String LF ""))%string]).
Proof.
  destruct w as [ser sc net cn lg].
  unfold setValue, writeValue, try_except, socket_socket, sock_connect, sock_sendall,
    sock_close, print, sys_exit, raise, ret, bind, current, emit, tick_connection.
  cbn.
  destruct (on_socket (net cn)) as [[]|e1]; cbn;
  try (destruct (is_socket_error e1); cbn);
  try (destruct (on_connect (net cn)) as [[]|e2]; cbn);
  try (destruct (on_sendall (net cn)) as [[]|e3]; cbn);
  try (destruct (is_socket_error e3); cbn).
  all: eexists; split; [rewrite <- ?app_assoc; reflexivity|].
  all: cbn; repeat split; auto.
Qed.





(** An attempt that cannot create a socket while [sock] is unbound. *)
Lemma attempt_unbound bytes dt w :
  on_socket (network w (connections w)) = Raise SocketError ->
  attempt bytes ({| sock := None; data := dt |}, w) =
  (Raise UnboundLocalError,
   ({| sock := None; data := dt |},
    after_attempts w 1 [SockCreate (connections w) false; Print ["Failed to create socket"]])).
Proof.
  destruct w as [ser sc net cn lg]. cbn. intros H.
  unfold attempt, try_except, outer, socket_socket, the_sock, get_locals, set_locals,
    print, ret, raise, bind, emit, tick_connection, after_attempts.
  cbn. rewrite H. cbn. now rewrite <- app_assoc.
Qed.

(** An attempt that cannot create a socket goes on with the socket that
    an earlier attempt left in [sock]. *)
Lemma attempt_stale bytes s dt w raw :
  on_socket (network w (connections w)) = Raise SocketError ->
  on_connect (network w (connections w)) = Ret tt ->
  on_sendall (network w (connections w)) = Ret tt ->
  on_recv (network w (connections w)) = Ret raw ->
  attempt bytes ({| sock := Some s; data := dt |}, w) =
  (Ret tt,
   ({| sock := Some s; data := Some (Py.rstrip raw) |},
    after_attempts w 1
      [SockCreate (connections w) false; Print ["Failed to create socket"];
       SockConnect s true; SockSendall s bytes true; SockRecv s (Ret raw); SockClose s])).
Proof.
  destruct w as [ser sc net cn lg]. cbn. intros H1 H2 H3 H4.
  unfold attempt, try_except, outer, socket_socket, sock_connect, sock_sendall,
    sock_recv, sock_close, the_sock, get_locals, set_locals, print, ret, raise,
    bind, current, emit, tick_connection, after_attempts.
  cbn. rewrite H1. cbn. rewrite H2. cbn. rewrite H3. cbn. rewrite H4. cbn.
  now rewrite <- !app_assoc.
Qed.

(** An attempt whose connection is refused leaves its socket in [sock]. *)
Lemma attempt_refused bytes sk dt w e :
  on_socket (network w (connections w)) = Ret tt ->
  on_connect (network w (connections w)) = Raise e ->
  attempt bytes ({| sock := sk; data := dt |}, w) =
  (Raise e,
   ({| sock := Some (connections w); data := dt |},
    after_attempts w 1
      [SockCreate (connections w) true; SockConnect (connections w) false])).
Proof.
  destruct w as [ser sc net cn lg]. cbn. intros H1 H2.
  unfold attempt, try_except, outer, socket_socket, sock_connect, the_sock,
    get_locals, set_locals, print, ret, raise, bind, current, emit, tick_connection,
    after_attempts.
  cbn. rewrite H1. cbn. rewrite H2. cbn. now rewrite <- !app_assoc.
Qed.

Lemma retry_loop_unbound bytes n :
  forall k w,
    (forall j, (j < n)%nat ->
       on_socket (network w (j + connections w)%nat) = Raise SocketError) ->
    exists evs,
      retry_loop bytes (seq k n) ({| sock := None; data := None |}, w) =
      (Ret tt, ({| sock := None; data := None |}, after_attempts w n evs)) /\
      wire evs = map (fun j => SockCreate (j + connections w) false) (seq 0 n).
Proof.
  induction n as [|n IH]; intros k w H.
  - exists []. split; [|reflexivity]. cbn. unfold ret, after_attempts.
    destruct w; cbn. now rewrite app_nil_r.
  - cbn [seq]. rewrite retry_loop_step, attempt_unbound by exact (H 0%nat ltac:(lia)).
    set (w1 := emit (Sleep 1000) (emit (Print _) (after_attempts w 1 _))).
    destruct (IH (S k) w1) as (evs & Hl & Hw).
    { intros j Hj. unfold w1. cbn. replace (j + S (connections w))%nat
        with (S j + connections w)%nat by lia. apply H. lia. }
    rewrite Hl.
    exists ([SockCreate (connections w) false; Print ["Failed to create socket"];
             Print ["Communication failed on attempt "; Py.str_nat k]; Sleep 1000] ++ evs).
    split.
    + unfold w1, after_attempts, emit.
      cbn [serial serial_calls network connections log].
      do 2 f_equal. f_equal; [lia|]. rewrite <- !app_assoc. reflexivity.
    + rewrite !wire_app. cbn [wire on_wire app]. rewrite Hw. cbn [map seq].
      f_equal. rewrite <- seq_shift, map_map. apply map_ext. intros j.
      unfold w1. cbn. f_equal. lia.
Qed.

(** X14. When no socket can be created in any of the five attempts of a
    read, the name [sock] is never bound: each attempt ends at
    [sock.connect], no connect, send or receive is made, and the read ends
    the process after five attempts. *)
Theorem readValue_without_socket value readPrefix w :
  (forall j, (j < 5)%nat ->
     on_socket (network w (j + connections w)%nat) = Raise SocketError) ->
  exists evs,
    readValue value readPrefix w = (Raise SystemExit, after_attempts w 5 evs) /\
    wire evs = map (fun j => SockCreate (j + connections w) false) (seq 0 5).
Proof.
  intros H.
  destruct (retry_loop_unbound (readPrefix ++ value ++ String CR (String LF "")) 5 0
              (emit (Sleep 100) w) H) as (evs & Hl & Hw).
  exists (Sleep 100 :: evs ++ [Print ["Communication failed 5 times, aborting"]]).
  split.
  - unfold readValue, bind at 1, sleep, with_locals.
    unfold bind at 1. rewrite Hl. unfold bind at 1, get_locals.
    unfold outer, print, sys_exit, raise, bind, after_attempts, emit. cbn.
    rewrite <- !app_assoc. reflexivity.
  - cbn [wire on_wire]. rewrite wire_app. cbn [wire on_wire]. rewrite app_nil_r.
    exact Hw.
Qed.

Lemma readValue_without_socket_witness :
  exists evs,
    readValue "SYS:CAT" "READ:" (new_world (fun _ => Ret "") no_sockets) =
      (Raise SystemExit, after_attempts (new_world (fun _ => Ret "") no_sockets) 5 evs) /\
    wire evs = map (fun j => SockCreate (j + 0) false) (seq 0 5).
Proof.
  apply (readValue_without_socket "SYS:CAT" "READ:" (new_world (fun _ => Ret "") no_sockets)).
  intros j Hj. reflexivity.
Defined.

(** X15. When the connection of the first attempt of a read is refused and
    no socket can be created in the second, the second attempt goes on with
    the socket of the first: it connects, sends, receives and closes on it,
    and the read returns the line received there. *)
Theorem readValue_reuses_stale_socket value readPrefix w e raw :
  on_socket (network w (connections w)) = Ret tt ->
  on_connect (network w (connections w)) = Raise e ->
  on_socket (network w (S (connections w))) = Raise SocketError ->
  on_connect (network w (S (connections w))) = Ret tt ->
  on_sendall (network w (S (connections w))) = Ret tt ->
  on_recv (network w (S (connections w))) = Ret raw ->
  exists evs,
    readValue value readPrefix w = (Ret (Py.rstrip raw), after_attempts w 2 evs) /\
    wire evs =
      [SockCreate (connections w) true; SockConnect (connections w) false;
       SockCreate (S (connections w)) false] ++
      exchange (connections w) (readPrefix ++ value ++ String CR (String LF "")) true raw.
Proof.
  intros H1 H2 H3 H4 H5 H6.
  eexists. split.
  - unfold readValue, bind at 1, sleep, with_locals.
    unfold bind at 1. cbn [seq]. rewrite retry_loop_step.
    rewrite (attempt_refused _ _ _ _ e) by assumption.
    rewrite retry_loop_step.
    rewrite (attempt_stale _ _ _ _ raw) by assumption.
    unfold bind at 1, get_locals. cbn.
    unfold ret, after_attempts, emit. cbn. rewrite <- !app_assoc. cbn. reflexivity.
  - reflexivity.
Qed.

Lemma readValue_reuses_stale_socket_witness :
  exists evs,
    readValue "SYS:CAT" "READ:"
      (new_world (fun _ => Ret "") (second_socket_missing "STAT:SYS:CAT:DEV:MB1.T1:TEMP")) =
      (Ret (Py.rstrip "STAT:SYS:CAT:DEV:MB1.T1:TEMP"),
       after_attempts
         (new_world (fun _ => Ret "") (second_socket_missing "STAT:SYS:CAT:DEV:MB1.T1:TEMP"))
         2 evs) /\
    wire evs =
      [SockCreate 0 true; SockConnect 0 false; SockCreate 1 false] ++
      exchange 0 ("READ:" ++ "SYS:CAT" ++ String CR (String LF "")) true
        "STAT:SYS:CAT:DEV:MB1.T1:TEMP".
Proof.
  apply (readValue_reuses_stale_socket "SYS:CAT" "READ:"
           (new_world (fun _ => Ret "") (second_socket_missing "STAT:SYS:CAT:DEV:MB1.T1:TEMP"))
           SocketError "STAT:SYS:CAT:DEV:MB1.T1:TEMP"); reflexivity.
Defined.

(** ** Identification, catalogue and the fields of a line *)



(** The line assembled from fields. *)
Lemma join_snoc sep a fields field :
  join sep ((a :: fields) ++ [field]) = (join sep (a :: fields) ++ String sep field)%string.
Proof.
  revert a. induction fields as [|b fields IH]; intros a; [reflexivity|].
  change (join sep ((a :: b :: fields) ++ [field]))
    with (a ++ String sep (join sep ((b :: fields) ++ [field])))%string.
  rewrite IH.
  change (join sep (a :: b :: fields)) with (a ++ String sep (join sep (b :: fields)))%string.
  rewrite string_app_assoc. reflexivity.
Qed.

(** X17. The last field of a line assembled from fields with colons between
    them is found again by [parseResponse], when that field has no colon. *)
Theorem parseResponse_round_trip fields field :
  has_char ":" field = false ->
  parseResponse (join ":" (fields ++ [field])) = Ret field.
Proof.
  intros H. destruct fields as [|a fields].
  - cbn [app join]. unfold parseResponse. rewrite (split_clean _ _ H). reflexivity.
  - rewrite join_snoc. now apply parseResponse_field.
Qed.

Lemma parseResponse_round_trip_witness :
  parseResponse "STAT:DEV:DB7.T1:TEMP:SIG:TEMP:293.1500K" = Ret "293.1500K".
Proof.
  apply (parseResponse_round_trip ["STAT"; "DEV"; "DB7.T1"; "TEMP"; "SIG"; "TEMP"]
           "293.1500K").
  reflexivity.
Defined.

(** X18. On the serial variant an exception of [getSignal] is [KeyError] for
    the device, [IndexError], [ValueError], or the exception that one of
    the three port calls of the read raised. *)
Theorem serial_getSignal_errors self device signal w e :
  self_readValue self = temperatureController.readValue ->
  fst (getSignal self device signal w) = Raise e ->
  e = KeyError device \/ e = IndexError \/ e = ValueError \/
  exists k, (k < 3)%nat /\ serial w (k + serial_calls w) = Raise e.
Proof.
  intros Hs H.
  destruct (self_devices self !! device) as [address|] eqn:Hd.
  - destruct (self_readValue self (address ++ ":SIG:" ++ signal)%string "READ:" w)
      as [[raw|x] w1] eqn:Hr.
    + destruct (getSignal_after_read self device signal address w raw w1 Hd Hr)
        as (ans & _ & Hg).
      rewrite Hg in H. destruct (decode_raises ans w1 e H) as [-> | ->]; tauto.
    + rewrite (getSignal_read_raises self device signal address w x w1 Hd Hr) in H.
      cbn in H. inversion H; subst x. right. right. right.
      rewrite Hs, serial_readValue_run in Hr. cbv zeta in Hr.
      destruct (serial w (serial_calls w)) as [x0|e0] eqn:E0;
        [|exists 0%nat; split; [lia|]; cbn [Nat.add]; congruence].
      destruct (serial w (S (serial_calls w))) as [x1|e1] eqn:E1;
        [|exists 1%nat; split; [lia|]; cbn [Nat.add]; congruence].
      destruct (serial w (S (S (serial_calls w)))) as [x2|e2] eqn:E2;
        [discriminate|exists 2%nat; split; [lia|]; cbn [Nat.add]; congruence].
  - left. unfold getSignal, bind, lift, dict_getitem in H. rewrite Hd in H.
    cbn in H. congruence.
Qed.

Lemma serial_getSignal_errors_witness :
  SerialException = KeyError "db7" \/ SerialException = IndexError \/
  SerialException = ValueError \/
  exists k, (k < 3)%nat /\
            serial (flush_broken "STAT:DEV:DB7.T1:TEMP:SIG:TEMP:293.1500K")
              (k + serial_calls (flush_broken "STAT:DEV:DB7.T1:TEMP:SIG:TEMP:293.1500K"))
            = Raise SerialException.
Proof.
  apply (serial_getSignal_errors temperatureController.new "db7" "TEMP"
           (flush_broken "STAT:DEV:DB7.T1:TEMP:SIG:TEMP:293.1500K") SerialException);
    reflexivity.
Defined.
